(** * The tax / lot-accounting engine of financial_api (utils.py, models.py)

    A shallow embedding of [TaxCalculator] and of the [Transaction] model
    properties it reads, followed by the properties of the engine.

    Modelling conventions.
    - [Decimal] values are exact rationals ([Q]); Python's [==] on decimals
      is [Qeq] and the comparisons are the boolean tests [Qltb] and
      [Qle_bool].  The 28-digit precision of the decimal context is not
      modelled: all arithmetic is exact.
    - A Django model instance is a mutable object.  The transactions of one
      day are kept in a store (a list indexed by position); the lists the
      source builds out of them ([ticker_transactions], [buys], [sells])
      hold references, here positions in that store, so that a mutation made
      by [process_day_trades] is seen by the loop that follows it.
    - [holdings] is a [defaultdict(list)]: a finite map from ticker to the
      list of open lots, where reading a missing key yields the empty list.
    - Python's call stack is bounded; the constructor's recursion is given
      a depth budget and running out of it raises [RecursionError]. *)

From Stdlib Require PrimFloat FloatOps.
From Stdlib Require Import QArith Qminmax Qabs Lqa.
From stdpp Require Import gmap strings list fin_maps.

(** ** Decimal comparisons *)

(** [a < b] on decimals. *)
Definition Qltb (a b : Q) : bool :=
  match (a ?= b)%Q with Lt => true | _ => false end.

(** ** Outcomes of a call *)

Inductive outcome (A : Type) : Type :=
| Returns (a : A)
| Raises (exception : string).

Arguments Returns {A} a.
Arguments Raises {A} exception.

(** ** models.py: [Transaction] *)

Module Transaction.

(** [date] is a calendar date. *)
Record date_t : Type := Date { year : Z; month : Z; day : Z }.

Record t : Type := Make {
  ticker : string;
  transaction_type : string;
  quantity : Q;
  price_usd : Q;
  exchange_rate : Q;
  date : date_t;
  brokerage_fee : Q;
  is_day_trade : bool
}.

(** [Transaction.total_value_usd]: total value in USD including fees. *)
Definition total_value_usd (self : t) : Q :=
  let base_value := (quantity self * price_usd self)%Q in
  (base_value + brokerage_fee self)%Q.

(** [Transaction.total_value_brl]: total value in BRL including fees. *)
Definition total_value_brl (self : t) : Q :=
  (total_value_usd self * exchange_rate self)%Q.

(** Attribute assignments [self.quantity = q] and [self.is_day_trade = b]. *)
Definition set_quantity (self : t) (q : Q) : t :=
  Make (ticker self) (transaction_type self) q (price_usd self)
       (exchange_rate self) (date self) (brokerage_fee self)
       (is_day_trade self).

Definition set_is_day_trade (self : t) (b : bool) : t :=
  Make (ticker self) (transaction_type self) (quantity self) (price_usd self)
       (exchange_rate self) (date self) (brokerage_fee self) b.

Definition set_brokerage_fee (self : t) (fee : Q) : t :=
  Make (ticker self) (transaction_type self) (quantity self) (price_usd self)
       (exchange_rate self) (date self) fee (is_day_trade self).

End Transaction.

(** ** The lots of the inventory

    The dictionaries appended to [holdings[ticker]] by
    [calculate_month_taxes]. *)

Module Holding.

Record t : Type := Make {
  quantity : Q;
  price : Q;
  exchange_rate : Q;
  date : Transaction.date_t;
  brokerage_fee : Q
}.

(** [holding['quantity'] = q]. *)
Definition set_quantity (self : t) (q : Q) : t :=
  Make q (price self) (exchange_rate self) (date self) (brokerage_fee self).

Definition set_brokerage_fee (self : t) (fee : Q) : t :=
  Make (quantity self) (price self) (exchange_rate self) (date self) fee.

End Holding.

(** ** Class constants of [TaxCalculator] *)

Definition TAX_RATE : Q := 15 # 100.
Definition MONTHLY_EXEMPTION : Q := 20000.
Definition DAY_TRADE_TAX_RATE : Q := 20 # 100.
Definition IRRF_RATE : Q := 5 # 100000.
Definition SWING_TRADE_EXEMPTION : Q := 20000.

(** ** [TaxCalculator.calculate_fifo_gain_loss] *)

(** The body of the loop after the branch: gain or loss of the portion
    [quantity_used] taken from [holding]. *)
Definition portion_gain_loss (sell_transaction : Transaction.t)
    (holding : Holding.t) (quantity_used : Q) : Q :=
  let cost_basis_usd := (quantity_used * Holding.price holding)%Q in
  let cost_basis_brl := (cost_basis_usd * Holding.exchange_rate holding)%Q in
  let sale_value_usd :=
    (quantity_used * Transaction.price_usd sell_transaction)%Q in
  let sale_value_brl :=
    (sale_value_usd * Transaction.exchange_rate sell_transaction)%Q in
  (sale_value_brl - cost_basis_brl)%Q.

(** The [while remaining_quantity > 0 and holdings] loop.  An iteration
    either pops the head lot or sets [remaining_quantity] to zero, after
    which the loop condition fails; the recursion is on the list of lots. *)
Fixpoint fifo_loop (sell_transaction : Transaction.t)
    (remaining_quantity total_gain_loss : Q) (holdings : list Holding.t)
    : Q * list Holding.t :=
  match holdings with
  | [] => (total_gain_loss, [])
  | holding :: rest =>
    if Qltb 0 remaining_quantity then
      if Qle_bool (Holding.quantity holding) remaining_quantity then
        (* use entire holding *)
        let quantity_used := Holding.quantity holding in
        fifo_loop sell_transaction
          (remaining_quantity - quantity_used)%Q
          (total_gain_loss
           + portion_gain_loss sell_transaction holding quantity_used)%Q
          rest
      else
        (* use partial holding *)
        let quantity_used := remaining_quantity in
        let holding' :=
          Holding.set_quantity holding
            (Holding.quantity holding - quantity_used)%Q in
        ((total_gain_loss
          + portion_gain_loss sell_transaction holding quantity_used)%Q,
         holding' :: rest)
    else (total_gain_loss, holdings)
  end.

(** Returns the gain or loss and the list of lots as the call leaves it
    (the source mutates the list it is given). *)
Definition calculate_fifo_gain_loss (sell_transaction : Transaction.t)
    (holdings : list Holding.t) : Q * list Holding.t :=
  fifo_loop sell_transaction (Transaction.quantity sell_transaction) 0 holdings.

(** ** Grouping with [defaultdict(list)]

    [groups[key].append(v)] for each element in turn; the keys keep their
    insertion order, which is the order [items()] iterates in. *)

Section Grouping.
Context {K V : Type} `{EqDecision K}.

Fixpoint group_append (groups : list (K * list V)) (key : K) (v : V)
    : list (K * list V) :=
  match groups with
  | [] => [(key, [v])]
  | (k, vs) :: rest =>
    if decide (k = key) then (k, vs ++ [v]) :: rest
    else (k, vs) :: group_append rest key v
  end.

Definition group_by {A : Type} (key_of : A -> K) (value_of : A -> V)
    (l : list A) : list (K * list V) :=
  fold_left (fun groups a => group_append groups (key_of a) (value_of a))
            l [].
End Grouping.

(** ** [TaxCalculator.process_day_trades] *)

Module DayTradeResult.
Record t : Type := Make { gains : Q; losses : Q }.
End DayTradeResult.

(** [store] holds the transactions of the day; a reference to a transaction
    is its position in [store]. *)
Definition has_type (store : list Transaction.t) (type : string) (ref : nat)
    : bool :=
  match store !! ref with
  | Some t => String.eqb (Transaction.transaction_type t) type
  | None => false
  end.

(** [ticker_transactions]: for each ticker, in order of first appearance,
    the references to its transactions. *)
Definition ticker_transactions (transactions : list Transaction.t)
    : list (string * list nat) :=
  group_by (fun it : nat * Transaction.t => Transaction.ticker it.2)
           (fun it : nat * Transaction.t => it.1)
           (imap pair transactions).

(** The body of the two nested loops for the pair [buy], [sell]. *)
Definition match_pair (acc : list Transaction.t * DayTradeResult.t)
    (b s : nat) : list Transaction.t * DayTradeResult.t :=
  let '(store, result) := acc in
  match store !! b, store !! s with
  | Some buy, Some sell =>
    if Qltb 0 (Transaction.quantity buy)
       && Qltb 0 (Transaction.quantity sell) then
      (* calculate day trade quantity *)
      let day_trade_qty :=
        Qmin (Transaction.quantity buy) (Transaction.quantity sell) in
      (* calculate gain/loss *)
      let buy_value :=
        (day_trade_qty * Transaction.price_usd buy
         * Transaction.exchange_rate buy)%Q in
      let sell_value :=
        (day_trade_qty * Transaction.price_usd sell
         * Transaction.exchange_rate sell)%Q in
      let gain_loss := (sell_value - buy_value)%Q in
      (* update quantities, mark as day trade *)
      let buy' :=
        Transaction.set_is_day_trade
          (Transaction.set_quantity buy
             (Transaction.quantity buy - day_trade_qty)%Q) true in
      let sell' :=
        Transaction.set_is_day_trade
          (Transaction.set_quantity sell
             (Transaction.quantity sell - day_trade_qty)%Q) true in
      let store' := <[s := sell']> (<[b := buy']> store) in
      if Qltb 0 gain_loss then
        (store',
         DayTradeResult.Make
           (DayTradeResult.gains result + gain_loss)%Q
           (DayTradeResult.losses result))
      else
        (store',
         DayTradeResult.Make
           (DayTradeResult.gains result)
           (DayTradeResult.losses result + Qabs gain_loss)%Q)
    else acc
  | _, _ => acc
  end.

(** [for buy in buys: for sell in sells: ...] for one ticker. *)
Definition match_ticker (acc : list Transaction.t * DayTradeResult.t)
    (ticker_txs : list nat) : list Transaction.t * DayTradeResult.t :=
  let buys := List.filter (has_type acc.1 "buy") ticker_txs in
  let sells := List.filter (has_type acc.1 "sell") ticker_txs in
  fold_left (fun acc buy => fold_left (fun acc sell => match_pair acc buy sell)
                                      sells acc)
            buys acc.

(** Returns the transactions of the day as the call leaves them (their
    [quantity] and [is_day_trade] are mutated) and the day-trade result. *)
Definition process_day_trades (transactions : list Transaction.t)
    : list Transaction.t * DayTradeResult.t :=
  fold_left (fun acc group => match_ticker acc group.2)
            (ticker_transactions transactions)
            (transactions, DayTradeResult.Make 0 0).

(** ** [TaxCalculator.calculate_month_taxes] *)

(** The local variables of [calculate_month_taxes] that its loops update,
    together with [holdings], which the caller shares across months. *)
Module MonthState.
Record t : Type := Make {
  month_gains : Q;
  month_losses : Q;
  month_sales_total : Q;
  day_trade_gains : Q;
  day_trade_losses : Q;
  irrf_paid : Q;
  compensable_losses : Q;
  compensable_losses_used : Q;
  day_trade_losses_used : Q;
  holdings : gmap string (list Holding.t)
}.
End MonthState.

(** [holdings[ticker]] on the [defaultdict(list)]. *)
Definition holdings_get (holdings : gmap string (list Holding.t))
    (ticker : string) : list Holding.t :=
  default [] (holdings !! ticker).

(** The body of [for transaction in day_transactions]. *)
Definition process_transaction (st : MonthState.t)
    (transaction : Transaction.t) : MonthState.t :=
  let '(MonthState.Make month_gains month_losses month_sales_total
          day_trade_gains day_trade_losses irrf_paid compensable_losses
          compensable_losses_used day_trade_losses_used holdings) := st in
  if String.eqb (Transaction.transaction_type transaction) "sell" then
    (* calculate IRRF *)
    let irrf := (Transaction.total_value_brl transaction * IRRF_RATE)%Q in
    let irrf_paid := (irrf_paid + irrf)%Q in
    let month_sales_total :=
      (month_sales_total + Transaction.total_value_brl transaction)%Q in
    if negb (Transaction.is_day_trade transaction) then
      (* calculate gain/loss using FIFO *)
      let '(gain_loss, lots) :=
        calculate_fifo_gain_loss transaction
          (holdings_get holdings (Transaction.ticker transaction)) in
      let holdings := <[Transaction.ticker transaction := lots]> holdings in
      if Qltb 0 gain_loss then
        if Qltb 0 compensable_losses then
          (* apply compensable losses from previous year first *)
          let losses_to_use := Qmin gain_loss compensable_losses in
          let gain_loss := (gain_loss - losses_to_use)%Q in
          let compensable_losses := (compensable_losses - losses_to_use)%Q in
          let compensable_losses_used :=
            (compensable_losses_used + losses_to_use)%Q in
          MonthState.Make (month_gains + gain_loss)%Q month_losses
            month_sales_total day_trade_gains day_trade_losses irrf_paid
            compensable_losses compensable_losses_used day_trade_losses_used
            holdings
        else
          MonthState.Make (month_gains + gain_loss)%Q month_losses
            month_sales_total day_trade_gains day_trade_losses irrf_paid
            compensable_losses compensable_losses_used day_trade_losses_used
            holdings
      else
        MonthState.Make month_gains (month_losses + Qabs gain_loss)%Q
          month_sales_total day_trade_gains day_trade_losses irrf_paid
          compensable_losses compensable_losses_used day_trade_losses_used
          holdings
    else
      MonthState.Make month_gains month_losses month_sales_total
        day_trade_gains day_trade_losses irrf_paid compensable_losses
        compensable_losses_used day_trade_losses_used holdings
  else if String.eqb (Transaction.transaction_type transaction) "buy"
          && negb (Transaction.is_day_trade transaction) then
    (* add to holdings *)
    let lot :=
      Holding.Make (Transaction.quantity transaction)
        (Transaction.price_usd transaction)
        (Transaction.exchange_rate transaction)
        (Transaction.date transaction)
        (Transaction.brokerage_fee transaction) in
    let ticker := Transaction.ticker transaction in
    MonthState.Make month_gains month_losses month_sales_total
      day_trade_gains day_trade_losses irrf_paid compensable_losses
      compensable_losses_used day_trade_losses_used
      (<[ticker := holdings_get holdings ticker ++ [lot]]> holdings)
  else st.

(** The body of [for date, day_transactions in daily_transactions.items()]. *)
Definition process_day (st : MonthState.t)
    (day_transactions : list Transaction.t) : MonthState.t :=
  (* process day trades first *)
  let '(day_transactions, day_trade_results) :=
    process_day_trades day_transactions in
  let '(MonthState.Make month_gains month_losses month_sales_total
          day_trade_gains day_trade_losses irrf_paid compensable_losses
          compensable_losses_used day_trade_losses_used holdings) := st in
  (* apply day trade losses first *)
  let '(results_gains, day_trade_losses, day_trade_losses_used) :=
    if Qltb 0 (DayTradeResult.gains day_trade_results)
       && Qltb 0 day_trade_losses then
      let losses_to_use :=
        Qmin (DayTradeResult.gains day_trade_results) day_trade_losses in
      ((DayTradeResult.gains day_trade_results - losses_to_use)%Q,
       (day_trade_losses - losses_to_use)%Q,
       (day_trade_losses_used + losses_to_use)%Q)
    else
      (DayTradeResult.gains day_trade_results, day_trade_losses,
       day_trade_losses_used) in
  let day_trade_gains := (day_trade_gains + results_gains)%Q in
  let day_trade_losses :=
    (day_trade_losses + DayTradeResult.losses day_trade_results)%Q in
  (* process remaining normal transactions *)
  fold_left process_transaction day_transactions
    (MonthState.Make month_gains month_losses month_sales_total
       day_trade_gains day_trade_losses irrf_paid compensable_losses
       compensable_losses_used day_trade_losses_used holdings).

(** The dictionary [calculate_month_taxes] returns. *)
Module MonthResult.
Record t : Type := Make {
  month : Z * Z;
  gains : Q;
  losses : Q;
  net_gains : Q;
  sales_total : Q;
  taxable_gains : Q;
  day_trade_gains : Q;
  day_trade_losses : Q;
  irrf_paid : Q;
  exempt : bool;
  exempted_gains : Q;
  exempted_sales : Q;
  remaining_compensable_losses : Q;
  remaining_day_trade_losses : Q;
  compensable_losses_used : Q;
  day_trade_losses_used : Q
}.
End MonthResult.

#[global] Instance date_eq_dec : EqDecision Transaction.date_t.
Proof. solve_decision. Defined.

(** [daily_transactions]: the transactions of the month by date, dates in
    order of first appearance. *)
Definition daily_transactions (transactions : list Transaction.t)
    : list (Transaction.date_t * list Transaction.t) :=
  group_by Transaction.date (fun t => t) transactions.

(** The state in which the loop over the days starts.  The parameter
    [day_trade_losses] is assigned [Decimal('0.00')] among the
    initialisations at the top of the function, before it is ever read. *)
Definition month_initial_state (holdings : gmap string (list Holding.t))
    (compensable_losses day_trade_losses : Q) : MonthState.t :=
  let month_gains := 0%Q in
  let month_losses := 0%Q in
  let month_sales_total := 0%Q in
  let day_trade_gains := 0%Q in
  let day_trade_losses := 0%Q in
  let irrf_paid := 0%Q in
  let compensable_losses_used := 0%Q in
  let day_trade_losses_used := 0%Q in
  MonthState.Make month_gains month_losses month_sales_total day_trade_gains
    day_trade_losses irrf_paid compensable_losses compensable_losses_used
    day_trade_losses_used holdings.

(** The monthly exemption for swing trades and the returned dictionary. *)
Definition month_result (month : Z * Z) (st : MonthState.t) : MonthResult.t :=
  let net_gains := (MonthState.month_gains st - MonthState.month_losses st)%Q in
  let '(exempted_gains, exempted_sales, taxable_gains) :=
    if Qltb 0 net_gains
       && Qle_bool (MonthState.month_sales_total st) SWING_TRADE_EXEMPTION
    then (net_gains, MonthState.month_sales_total st, 0%Q)
    else (0%Q, 0%Q, if Qltb 0 net_gains then net_gains else 0%Q) in
  MonthResult.Make month
    (MonthState.month_gains st)
    (MonthState.month_losses st)
    net_gains
    (MonthState.month_sales_total st)
    taxable_gains
    (MonthState.day_trade_gains st)
    (MonthState.day_trade_losses st)
    (MonthState.irrf_paid st)
    (Qle_bool (MonthState.month_sales_total st) MONTHLY_EXEMPTION)
    exempted_gains
    exempted_sales
    (MonthState.compensable_losses st)
    (MonthState.day_trade_losses st)
    (MonthState.compensable_losses_used st)
    (MonthState.day_trade_losses_used st).

(** Returns the month's dictionary and [holdings] as the call leaves it. *)
Definition calculate_month_taxes (transactions : list Transaction.t)
    (holdings : gmap string (list Holding.t)) (month : Z * Z)
    (compensable_losses day_trade_losses : Q)
    : MonthResult.t * gmap string (list Holding.t) :=
  let st :=
    fold_left (fun st group => process_day st group.2)
      (daily_transactions transactions)
      (month_initial_state holdings compensable_losses day_trade_losses) in
  (month_result month st, MonthState.holdings st).

(** ** [TaxCalculator.calculate_taxes] *)

(** The dictionary [calculate_taxes] returns.  The [recommendations] are
    texts derived from the other entries once these are final; they are
    left out. *)
Module YearlySummary.
Record t : Type := Make {
  year : Z;
  total_gains : Q;
  total_losses : Q;
  net_gains : Q;
  tax_owed : Q;
  irrf_paid : Q;
  day_trade_gains : Q;
  day_trade_losses : Q;
  day_trade_tax : Q;
  monthly_breakdown : list MonthResult.t;
  compensable_losses : Q;
  day_trade_compensable_losses : Q;
  previous_year_losses_used : Q;
  previous_year_day_trade_losses_used : Q;
  total_exempted_gains : Q;
  total_exempted_sales : Q
}.
End YearlySummary.

(** The attributes of a [TaxCalculator] that [calculate_taxes] reads. *)
Module TaxCalculator.
Record t : Type := Make {
  year : Z;
  transactions : list Transaction.t;
  compensable_losses : Q;
  day_trade_compensable_losses : Q
}.
End TaxCalculator.

(** [group_transactions_by_month]; the key ["{year}-{month:02d}"] is kept
    as the pair of its two numbers. *)
Definition group_transactions_by_month (transactions : list Transaction.t)
    : list (Z * Z * list Transaction.t) :=
  group_by
    (fun t => (Transaction.year (Transaction.date t),
               Transaction.month (Transaction.date t)))
    (fun t => t) transactions.

(** What the loop over the months carries: the summary under
    construction, [holdings] and the two remaining balances. *)
Module YearState.
Record t : Type := Make {
  summary : YearlySummary.t;
  holdings : gmap string (list Holding.t);
  remaining_compensable_losses : Q;
  remaining_day_trade_losses : Q
}.
End YearState.

(** The body of [for month, transactions in monthly_data.items()]. *)
Definition process_month (ys : YearState.t)
    (group : Z * Z * list Transaction.t) : YearState.t :=
  let '(month, transactions) := group in
  let '(YearState.Make yearly_summary holdings remaining_compensable_losses
          remaining_day_trade_losses) := ys in
  let '(month_result, holdings) :=
    calculate_month_taxes transactions holdings month
      remaining_compensable_losses remaining_day_trade_losses in
  let '(YearlySummary.Make year total_gains total_losses net_gains tax_owed
          irrf_paid day_trade_gains day_trade_losses day_trade_tax
          monthly_breakdown compensable_losses day_trade_compensable_losses
          previous_year_losses_used previous_year_day_trade_losses_used
          total_exempted_gains total_exempted_sales) := yearly_summary in
  YearState.Make
    (YearlySummary.Make year
       (total_gains + MonthResult.gains month_result)%Q
       (total_losses + MonthResult.losses month_result)%Q
       net_gains
       tax_owed
       (irrf_paid + MonthResult.irrf_paid month_result)%Q
       (day_trade_gains + MonthResult.day_trade_gains month_result)%Q
       (day_trade_losses + MonthResult.day_trade_losses month_result)%Q
       day_trade_tax
       (monthly_breakdown ++ [month_result])
       compensable_losses
       day_trade_compensable_losses
       (previous_year_losses_used
        + MonthResult.compensable_losses_used month_result)%Q
       (previous_year_day_trade_losses_used
        + MonthResult.day_trade_losses_used month_result)%Q
       (total_exempted_gains + MonthResult.exempted_gains month_result)%Q
       (total_exempted_sales + MonthResult.exempted_sales month_result)%Q)
    holdings
    (* update remaining compensable losses *)
    (MonthResult.remaining_compensable_losses month_result)
    (MonthResult.remaining_day_trade_losses month_result).

(** The yearly totals once every month is processed. *)
Definition monthly_totals (self : TaxCalculator.t) : YearlySummary.t :=
  let monthly_data :=
    group_transactions_by_month (TaxCalculator.transactions self) in
  let yearly_summary :=
    YearlySummary.Make (TaxCalculator.year self) 0 0 0 0 0 0 0 0 [] 0 0 0 0 0 0 in
  YearState.summary
    (fold_left process_month monthly_data
       (YearState.Make yearly_summary ∅
          (TaxCalculator.compensable_losses self)
          (TaxCalculator.day_trade_compensable_losses self))).

(** The part of [calculate_taxes] after the loop: taxes, IRRF credit and
    the losses to compensate next year. *)
Definition finish_summary (yearly_summary : YearlySummary.t)
    : YearlySummary.t :=
  let '(YearlySummary.Make year total_gains total_losses net_gains tax_owed
          irrf_paid day_trade_gains day_trade_losses day_trade_tax
          monthly_breakdown compensable_losses day_trade_compensable_losses
          previous_year_losses_used previous_year_day_trade_losses_used
          total_exempted_gains total_exempted_sales) := yearly_summary in
  (* net gains separately for day trade and normal operations *)
  let normal_net_gains := (total_gains - total_losses)%Q in
  let day_trade_net_gains := (day_trade_gains - day_trade_losses)%Q in
  (* calculate taxes *)
  let tax_owed :=
    if Qltb 0 normal_net_gains
    then (tax_owed + normal_net_gains * TAX_RATE)%Q else tax_owed in
  let day_trade_tax :=
    if Qltb 0 day_trade_net_gains
    then (day_trade_net_gains * DAY_TRADE_TAX_RATE)%Q else day_trade_tax in
  (* total tax owed is the sum of both types minus IRRF paid *)
  let total_tax := (tax_owed + day_trade_tax)%Q in
  let tax_owed := Qmax (total_tax - irrf_paid) 0 in
  (* compensable losses for next year *)
  let compensable_losses :=
    if Qltb normal_net_gains 0
    then Qabs normal_net_gains else compensable_losses in
  let day_trade_compensable_losses :=
    if Qltb day_trade_net_gains 0
    then Qabs day_trade_net_gains else day_trade_compensable_losses in
  YearlySummary.Make year total_gains total_losses net_gains tax_owed
    irrf_paid day_trade_gains day_trade_losses day_trade_tax
    monthly_breakdown compensable_losses day_trade_compensable_losses
    previous_year_losses_used previous_year_day_trade_losses_used
    total_exempted_gains total_exempted_sales.

Definition calculate_taxes (self : TaxCalculator.t) : YearlySummary.t :=
  finish_summary (monthly_totals self).

(** ** [TaxCalculator.__init__] and [get_previous_year_losses] *)

Section Constructor.

(** [Transaction.objects.filter(user=user, date__year=year)
    .order_by('date', 'created_at')] for the user of the run. *)
Variable ledger : Z -> list Transaction.t.

(** [TaxCalculator(user, year)] with [depth] calls still allowed on the
    stack.  The first component lists the years whose constructor body
    ran, in the order the calls were entered.

    [get_previous_year_losses] is inlined: [try] construct the calculator
    of [year - 1] and return its [calculate_taxes()]; on any exception
    return [{}], whose [get] then yields the defaults. *)
Fixpoint TaxCalculator_init (depth : nat) (year : Z)
    : list Z * outcome TaxCalculator.t :=
  match depth with
  | O => ([], Raises "RecursionError")
  | S depth' =>
    let previous_year_ := (year - 1)%Z in
    let '(calls, previous_calculator) :=
      TaxCalculator_init depth' previous_year_ in
    let previous_year :=
      match previous_calculator with
      | Returns previous_calculator =>
        Some (calculate_taxes previous_calculator)
      | Raises _ => None
      end in
    (year :: calls,
     Returns
       (TaxCalculator.Make year (ledger year)
          (from_option YearlySummary.compensable_losses 0%Q previous_year)
          (from_option YearlySummary.day_trade_compensable_losses 0%Q
             previous_year)))
  end.

(** The run of the view [tax_calculation]:
    [TaxCalculator(request.user, year).calculate_taxes()]. *)
Definition run (depth : nat) (year : Z) : outcome YearlySummary.t :=
  match (TaxCalculator_init depth year).2 with
  | Returns calculator => Returns (calculate_taxes calculator)
  | Raises e => Raises e
  end.

End Constructor.

(** ** [TaxCalculator.handle_corporate_action] and
       [TaxCalculator.adjust_quantity_for_corporate_actions] *)

(** The dictionaries appended to [corporate_actions[ticker]]; [ratio] and
    [new_ticker] default to [None]. *)
Module CorporateAction.
Record t : Type := Make {
  type : string;
  date : Transaction.date_t;
  ratio : option Q;
  new_ticker : option string
}.
End CorporateAction.

(** The class constant [CORPORATE_ACTIONS], keys and values in order. *)
Definition CORPORATE_ACTIONS : list (string * string) :=
  [ ("split", "stock_split");
    ("reverse_split", "reverse_stock_split");
    ("spinoff", "spinoff");
    ("merger", "merger");
    ("acquisition", "acquisition") ].

(** [d1 <= d2] on calendar dates. *)
Definition date_le (d1 d2 : Transaction.date_t) : bool :=
  let '(Transaction.Date y1 m1 dd1) := d1 in
  let '(Transaction.Date y2 m2 dd2) := d2 in
  (y1 <? y2)%Z
  || ((y1 =? y2)%Z && ((m1 <? m2)%Z || ((m1 =? m2)%Z && (dd1 <=? dd2)%Z))).

(** Returns [corporate_actions] as the call leaves it, or raises
    [ValueError] before touching it. *)
Definition handle_corporate_action
    (corporate_actions : gmap string (list CorporateAction.t))
    (action_type ticker : string) (date : Transaction.date_t)
    (ratio : option Q) (new_ticker : option string)
    : outcome (gmap string (list CorporateAction.t)) :=
  if negb (existsb (String.eqb action_type) CORPORATE_ACTIONS.*1) then
    Raises "ValueError"
  else
    let actions := default [] (corporate_actions !! ticker) in
    Returns
      (<[ticker := actions
                   ++ [CorporateAction.Make action_type date ratio
                         new_ticker]]> corporate_actions).

(** The body of [for action in self.corporate_actions[ticker]].  A
    [ratio] of [None] makes the multiplication or division raise
    [TypeError]; a division by zero raises as the decimal context has it. *)
Definition adjust_for_action (date : Transaction.date_t)
    (adjusted_quantity : Q) (action : CorporateAction.t) : outcome Q :=
  if date_le (CorporateAction.date action) date then
    if String.eqb (CorporateAction.type action) "stock_split" then
      match CorporateAction.ratio action with
      | Some ratio => Returns (adjusted_quantity * ratio)%Q
      | None => Raises "TypeError"
      end
    else if String.eqb (CorporateAction.type action) "reverse_stock_split"
    then
      match CorporateAction.ratio action with
      | Some ratio =>
        if Qeq_bool ratio 0 then
          if Qeq_bool adjusted_quantity 0 then Raises "InvalidOperation"
          else Raises "DivisionByZero"
        else Returns (adjusted_quantity / ratio)%Q
      | None => Raises "TypeError"
      end
    else if existsb (String.eqb (CorporateAction.type action))
              ["spinoff"; "merger"; "acquisition"]
    then Returns adjusted_quantity
    else Returns adjusted_quantity
  else Returns adjusted_quantity.

Fixpoint adjust_loop (date : Transaction.date_t) (adjusted_quantity : Q)
    (actions : list CorporateAction.t) : outcome Q :=
  match actions with
  | [] => Returns adjusted_quantity
  | action :: rest =>
    match adjust_for_action date adjusted_quantity action with
    | Returns adjusted_quantity => adjust_loop date adjusted_quantity rest
    | Raises e => Raises e
    end
  end.

Definition adjust_quantity_for_corporate_actions
    (corporate_actions : gmap string (list CorporateAction.t))
    (ticker : string) (quantity : Q) (date : Transaction.date_t)
    : outcome Q :=
  match corporate_actions !! ticker with
  | None => Returns quantity
  | Some actions => adjust_loop date quantity actions
  end.

(** ** models.py: [ADRQuote] and [Portfolio] *)

Module ADRQuote.
Record t : Type := Make {
  ticker : string;
  price_usd : Q;
  price_brl : Q;
  exchange_rate : Q
}.
End ADRQuote.

Module Portfolio.
Record t : Type := Make {
  ticker : string;
  quantity : Q;
  average_price_usd : Q
}.

(** [latest_quote] is the result of
    [ADRQuote.objects.filter(ticker=self.ticker).first()]: the latest
    quote of the ticker, or [None] when it has none. *)
Definition current_value_usd (self : t) (latest_quote : option ADRQuote.t)
    : Q :=
  match latest_quote with
  | Some latest_quote => (quantity self * ADRQuote.price_usd latest_quote)%Q
  | None => 0%Q
  end.

Definition current_value_brl (self : t) (latest_quote : option ADRQuote.t)
    : Q :=
  match latest_quote with
  | Some latest_quote => (quantity self * ADRQuote.price_brl latest_quote)%Q
  | None => 0%Q
  end.

Definition gain_loss_usd (self : t) (latest_quote : option ADRQuote.t) : Q :=
  let current_value := current_value_usd self latest_quote in
  let cost_basis := (quantity self * average_price_usd self)%Q in
  (current_value - cost_basis)%Q.

Definition gain_loss_percent (self : t) (latest_quote : option ADRQuote.t)
    : Q :=
  let cost_basis := (quantity self * average_price_usd self)%Q in
  if Qltb 0 cost_basis
  then (gain_loss_usd self latest_quote / cost_basis * 100)%Q
  else 0%Q.
End Portfolio.

(** ** models.py: [User] and the request counter

    A time is a number of microseconds; [now] stands for a reading of
    [timezone.now()].  [plan_limits] is the setting [RATE_LIMIT_PLANS], a
    dictionary from plan to a limit or [None]. *)

Module User.
Record t : Type := Make {
  plan : string;
  daily_requests : Z;
  last_request_reset : Z
}.

(** [timedelta.days]: whole days, rounded down. *)
Definition days (timedelta : Z) : Z := (timedelta / 86400000000)%Z.

Definition reset_daily_requests (self : t) (now : Z) : t :=
  Make (plan self) 0 now.

(** [now] is the reading compared with [last_request_reset], [now_reset]
    the later one that [reset_daily_requests] stores.  Returns the answer
    and the user as the call leaves it. *)
Definition can_make_request (plan_limits : gmap string (option Z))
    (self : t) (now now_reset : Z) : bool * t :=
  let self :=
    if (1 <=? days (now - last_request_reset self))%Z
    then reset_daily_requests self now_reset else self in
  let limit := plan_limits !! plan self in
  match limit with
  | None | Some None => (true, self)
  | Some (Some limit) => ((daily_requests self <? limit)%Z, self)
  end.

Definition increment_requests (self : t) : t :=
  Make (plan self) (daily_requests self + 1) (last_request_reset self).
End User.

(** ** middleware.py: [RateLimitMiddleware]

    [process_request] followed, when the request is let through, by
    [process_response], for a request to an API path that carries the key
    of [user].  Returns whether the request was let through (otherwise the
    answer is status 429) and the user as stored afterwards. *)
Definition rate_limited_request (plan_limits : gmap string (option Z))
    (user : User.t) (now now_reset : Z) : bool * User.t :=
  let '(allowed, user) :=
    User.can_make_request plan_limits user now now_reset in
  if negb allowed then (false, user)
  else (true, User.increment_requests user).

(** ** models.py: [MarketCorrelation]

    The correlations are [Decimal]s and the thresholds [0.7] and [0.3] are
    floats; a comparison of a [Decimal] with a float compares the exact
    values.  [float_value] is the exact value of a finite float. *)

Definition float_value (f : PrimFloat.float) : Q :=
  match FloatOps.Prim2SF f with
  | SpecFloat.S754_finite s m e =>
      ((if s then -1 else 1) * (Zpos m # 1) * Qpower 2 e)%Q
  | _ => 0%Q
  end.

Module MarketCorrelation.
Record t : Type := Make {
  correlation_30d : Q;
  correlation_7d : Q
}.

Import PrimFloat.
Set Warnings "-inexact-float".
Definition high_threshold : Q := Eval vm_compute in float_value 0.7%float.
Definition medium_threshold : Q := Eval vm_compute in float_value 0.3%float.
Set Warnings "inexact-float".

Definition correlation_strength_30d (self : t) : string :=
  let abs_corr := Qabs (correlation_30d self) in
  if Qle_bool high_threshold abs_corr then "high"
  else if Qle_bool medium_threshold abs_corr then "medium"
  else "low".

Definition correlation_strength_7d (self : t) : string :=
  let abs_corr := Qabs (correlation_7d self) in
  if Qle_bool high_threshold abs_corr then "high"
  else if Qle_bool medium_threshold abs_corr then "medium"
  else "low".
End MarketCorrelation.

(** * Definitions used to state the properties *)

(** ** Groupings

    The values recorded under [key], [[]] when the key is absent. *)
Section GroupLookup.
Context {K V : Type} `{EqDecision K}.

Fixpoint group_lookup (groups : list (K * list V)) (key : K) : list V :=
  match groups with
  | [] => []
  | (k, vs) :: rest =>
    if decide (k = key) then vs else group_lookup rest key
  end.
End GroupLookup.

(** Two groupings with the same keys, in the same order, and values
    related by [R]. *)
Definition groups_related {K A B : Type} (R : A -> B -> Prop)
    (gs : list (K * list A)) (gs' : list (K * list B)) : Prop :=
  Forall2 (fun g g' => g.1 = g'.1 /\ Forall2 R g.2 g'.2) gs gs'.

(** ** Years visited by the constructor *)

(** [year; year - 1; ...], [n] years in all. *)
Fixpoint years_down (year : Z) (n : nat) : list Z :=
  match n with
  | O => []
  | S n' => year :: years_down (year - 1) n'
  end.

(** ** Quantities and gains over a list of lots *)

(** The quantity held in a list of lots. *)
Definition total_quantity (lots : list Holding.t) : Q :=
  foldr (fun lot acc => (Holding.quantity lot + acc)%Q) 0%Q lots.

(** The gain or loss of selling every lot of the list in full. *)
Definition consumed_gain_loss (sell_transaction : Transaction.t)
    (lots : list Holding.t) : Q :=
  foldr (fun lot acc =>
           (portion_gain_loss sell_transaction lot (Holding.quantity lot)
            + acc)%Q) 0%Q lots.

(** ** What the day-trade matching changes *)

(** [t'] is the object [t] after assignments to [quantity] and
    [is_day_trade] only. *)
Definition same_identity (t t' : Transaction.t) : Prop :=
  exists (q : Q) (b : bool),
    t' = Transaction.set_is_day_trade (Transaction.set_quantity t q) b.

(** The positions, counted from [n], of the transactions of ticker [k]. *)
Fixpoint refs_from (n : nat) (k : string) (l : list Transaction.t)
    : list nat :=
  match l with
  | [] => []
  | t :: l' =>
    if bool_decide (Transaction.ticker t = k)
    then n :: refs_from (S n) k l'
    else refs_from (S n) k l'
  end.

(** ** The normal-trade part of the state *)

(** The part of the month's state that normal-trade processing works on:
    gains, losses, the balance of compensable losses and its use, and the
    lots. *)
Definition normal_part (st : MonthState.t)
    : Q * Q * Q * Q * gmap string (list Holding.t) :=
  (MonthState.month_gains st, MonthState.month_losses st,
   MonthState.compensable_losses st, MonthState.compensable_losses_used st,
   MonthState.holdings st).

(** ** Variants in the brokerage fees *)

(** The same transaction, or lot, with another brokerage fee. *)
Definition fee_variant (t t' : Transaction.t) : Prop :=
  exists fee : Q, t' = Transaction.set_brokerage_fee t fee.

Definition lot_fee_variant (h h' : Holding.t) : Prop :=
  exists fee : Q, h' = Holding.set_brokerage_fee h fee.

(** The store and result of the matching for a day and for the same day
    with other fees. *)
Definition matching_fee_variant
    (acc acc' : list Transaction.t * DayTradeResult.t) : Prop :=
  Forall2 fee_variant acc.1 acc'.1 /\ acc'.2 = acc.2.

(** Lots that differ in the recorded fees only. *)
Definition holdings_fee_variant (h h' : gmap string (list Holding.t)) : Prop :=
  forall k : string,
    Forall2 lot_fee_variant (holdings_get h k) (holdings_get h' k).

(** States of the month that differ in what depends on fees only: the
    recorded fees of the lots, the IRRF paid and the sales volume. *)
Definition state_fee_variant (st st' : MonthState.t) : Prop :=
  MonthState.month_gains st' = MonthState.month_gains st
  /\ MonthState.month_losses st' = MonthState.month_losses st
  /\ MonthState.day_trade_gains st' = MonthState.day_trade_gains st
  /\ MonthState.day_trade_losses st' = MonthState.day_trade_losses st
  /\ MonthState.compensable_losses st' = MonthState.compensable_losses st
  /\ MonthState.compensable_losses_used st'
     = MonthState.compensable_losses_used st
  /\ MonthState.day_trade_losses_used st'
     = MonthState.day_trade_losses_used st
  /\ holdings_fee_variant (MonthState.holdings st) (MonthState.holdings st').

(** ** Example data *)

Definition jan (d : Z) : Transaction.date_t := Transaction.Date 2024 1 d.

Definition buy_of (ticker : string) (quantity price_usd exchange_rate : Q)
    (date : Transaction.date_t) : Transaction.t :=
  Transaction.Make ticker "buy" quantity price_usd exchange_rate date 0 false.

Definition sell_of (ticker : string) (quantity price_usd exchange_rate : Q)
    (date : Transaction.date_t) : Transaction.t :=
  Transaction.Make ticker "sell" quantity price_usd exchange_rate date 0 false.

(** A swing trade: 100 shares bought at $10 on 2 January and sold at $12 on
    10 January, at R$5 to the dollar.  Sales of R$6,000, gain of R$1,000. *)
Definition swing_trade_month : list Transaction.t :=
  [ buy_of "VALE" 100 10 5 (jan 2); sell_of "VALE" 100 12 5 (jan 10) ].

(** A day trade: 100 shares bought at $10 and sold at $25 on 5 January, at
    R$1 to the dollar.  Day-trade gain of R$1,500. *)
Definition day_trade_month : list Transaction.t :=
  [ buy_of "VALE" 100 10 1 (jan 5); sell_of "VALE" 100 25 1 (jan 5) ].

(** 40 shares bought and 100 sold on the same day, at $11 and R$5. *)
Definition partial_day_trade_day : list Transaction.t :=
  [ buy_of "VALE" 40 10 5 (jan 5); sell_of "VALE" 100 11 5 (jan 5) ].

(** 100 shares bought and 100 sold on the same day. *)
Definition full_day_trade_day : list Transaction.t :=
  [ buy_of "VALE" 100 10 5 (jan 5); sell_of "VALE" 100 11 5 (jan 5) ].

(** 100 shares bought and 40 sold on the same day. *)
Definition partial_buy_day : list Transaction.t :=
  [ buy_of "VALE" 100 10 5 (jan 5); sell_of "VALE" 40 11 5 (jan 5) ].

(** The example of the specification: lots of 100 at $10 and 50 at $12,
    then a sell of 120. *)
Definition two_lots (r1 r2 : Q) (d1 d2 : Transaction.date_t)
    : list Holding.t :=
  [ Holding.Make 100 10 r1 d1 0; Holding.Make 50 12 r2 d2 0 ].

(** A ledger whose only transaction is a sell of 50 shares in 2024. *)
Definition oversold_ledger (year : Z) : list Transaction.t :=
  if (year =? 2024)%Z then [sell_of "VALE" 50 10 5 (jan 9)] else [].

(** A lot of 30 shares of VALE held before the day. *)
Definition state_with_lot : MonthState.t :=
  month_initial_state {[ "VALE" := [Holding.Make 30 8 5 (jan 2) 0] ]} 0 0.

(** A lot of 300 shares bought at $8 on 2 January, at R$5. *)
Definition holdings_with_300 : gmap string (list Holding.t) :=
  {[ "VALE" := [Holding.Make 300 8 5 (jan 2) 0] ]}.

(** 150 shares sold, then 100 bought and 100 sold, all on 5 January. *)
Definition crowded_day : list Transaction.t :=
  [ sell_of "VALE" 150 11 5 (jan 5); buy_of "VALE" 100 10 5 (jan 5);
    sell_of "VALE" 100 11 5 (jan 5) ].

(** 1000 shares bought at $3 and sold at $4, at R$5: a gain of R$5,000 on
    sales of R$20,000 before the fee of the sell. *)
Definition threshold_month (fee : Q) : list Transaction.t :=
  [ buy_of "VALE" 1000 3 5 (jan 2);
    Transaction.Make "VALE" "sell" 1000 4 5 (jan 10) fee false ].

(** ** What the matching does to a transaction *)

(** [t'] is [t] itself, or [t] marked as day trade with a smaller quantity
    that is not negative. *)
Definition matched_or_untouched (t t' : Transaction.t) : Prop :=
  same_identity t t'
  /\ (t' = t
      \/ (Transaction.is_day_trade t' = true
          /\ (0 <= Transaction.quantity t')%Q
          /\ (Transaction.quantity t' < Transaction.quantity t)%Q)).

(** ** Invariant of the month's state

    The figures that are never negative, and the compensable losses:
    what is left and what was used add up to the balance [c0] the month
    started with. *)
Definition month_invariant (c0 : Q) (st : MonthState.t) : Prop :=
  (0 <= MonthState.month_gains st)%Q
  /\ (0 <= MonthState.month_losses st)%Q
  /\ (0 <= MonthState.day_trade_gains st)%Q
  /\ (0 <= MonthState.day_trade_losses st)%Q
  /\ (0 <= MonthState.compensable_losses_used st)%Q
  /\ (0 <= MonthState.day_trade_losses_used st)%Q
  /\ (MonthState.compensable_losses st
      + MonthState.compensable_losses_used st == c0)%Q
  /\ ((0 <= c0)%Q -> (0 <= MonthState.compensable_losses st)%Q).

(** A month with a swing-trade gain of R$1,500: 100 shares bought at $10
    and sold at $13, at R$5. *)
Definition gain_1500_month : list Transaction.t :=
  [ buy_of "VALE" 100 10 5 (jan 2); sell_of "VALE" 100 13 5 (jan 10) ].

(** ** Invariant of the loop over the months

    The totals that are never negative; the compensable losses used so far
    and the balance left add up to the balance [c0] the year started with;
    the losses for next year are not assigned inside the loop. *)
Definition year_invariant (c0 : Q) (ys : YearState.t) : Prop :=
  (0 <= YearlySummary.total_gains (YearState.summary ys))%Q
  /\ (0 <= YearlySummary.total_losses (YearState.summary ys))%Q
  /\ (0 <= YearlySummary.day_trade_gains (YearState.summary ys))%Q
  /\ (0 <= YearlySummary.day_trade_losses (YearState.summary ys))%Q
  /\ (0 <= YearlySummary.previous_year_losses_used (YearState.summary ys))%Q
  /\ (YearlySummary.previous_year_losses_used (YearState.summary ys)
      + YearState.remaining_compensable_losses ys == c0)%Q
  /\ ((0 <= c0)%Q -> (0 <= YearState.remaining_compensable_losses ys)%Q)
  /\ YearlySummary.compensable_losses (YearState.summary ys) = 0%Q
  /\ YearlySummary.day_trade_compensable_losses (YearState.summary ys) = 0%Q.

(** ** A state with nothing realized and no lot *)

Definition nothing_realized (st : MonthState.t) : Prop :=
  (MonthState.month_gains st == 0)%Q
  /\ (MonthState.month_losses st == 0)%Q
  /\ (MonthState.day_trade_gains st == 0)%Q
  /\ (MonthState.day_trade_losses st == 0)%Q
  /\ forall k : string, holdings_get (MonthState.holdings st) k = [].

Definition nothing_realized_in_year (ys : YearState.t) : Prop :=
  (YearlySummary.total_gains (YearState.summary ys) == 0)%Q
  /\ (YearlySummary.total_losses (YearState.summary ys) == 0)%Q
  /\ (YearlySummary.day_trade_gains (YearState.summary ys) == 0)%Q
  /\ (YearlySummary.day_trade_losses (YearState.summary ys) == 0)%Q
  /\ forall k : string, holdings_get (YearState.holdings ys) k = [].

(** A buy of one ticker and a sell of another on the same day. *)
Definition two_tickers_day : list Transaction.t :=
  [ buy_of "VALE" 100 10 5 (jan 5); sell_of "PBR" 100 11 5 (jan 5) ].

(** A year whose only transaction is a sell. *)
Definition only_sell_year : list Transaction.t :=
  [ sell_of "VALE" 50 10 5 (jan 9) ].

(** ** Pairs with nothing left to match

    The transactions at [b] and [s] do not both have a positive quantity. *)
Definition exhausted_pair (store : list Transaction.t) (b s : nat) : Prop :=
  forall tb ts : Transaction.t,
    store !! b = Some tb -> store !! s = Some ts ->
    ~ ((0 < Transaction.quantity tb)%Q /\ (0 < Transaction.quantity ts)%Q).

(** ** Sequences of calls of [handle_corporate_action] *)

Module CorporateCall.
Record t : Type := Make {
  action_type : string;
  ticker : string;
  date : Transaction.date_t;
  ratio : option Q;
  new_ticker : option string
}.
End CorporateCall.

(** The state of [corporate_actions] after the calls, made in order from
    the given state; a call that raises leaves the state as it was. *)
Definition record_calls (calls : list CorporateCall.t)
    (corporate_actions : gmap string (list CorporateAction.t))
    : gmap string (list CorporateAction.t) :=
  fold_left
    (fun corporate_actions call =>
       match handle_corporate_action corporate_actions
               (CorporateCall.action_type call) (CorporateCall.ticker call)
               (CorporateCall.date call) (CorporateCall.ratio call)
               (CorporateCall.new_ticker call) with
       | Returns corporate_actions' => corporate_actions'
       | Raises _ => corporate_actions
       end)
    calls corporate_actions.

(** Every recorded action has one of the keys of [CORPORATE_ACTIONS] as
    its type. *)
Definition recorded_by_keys
    (corporate_actions : gmap string (list CorporateAction.t)) : Prop :=
  forall (ticker : string) (actions : list CorporateAction.t),
    corporate_actions !! ticker = Some actions ->
    Forall (fun action =>
              existsb (String.eqb (CorporateAction.type action))
                CORPORATE_ACTIONS.*1 = true) actions.

(** ** A sequence of requests of one user

    Each request comes with its two clock readings.  Returns the number of
    requests let through and the user after the last one. *)
Definition serve_requests (plan_limits : gmap string (option Z))
    (requests : list (Z * Z)) (user : User.t) : Z * User.t :=
  fold_left
    (fun (acc : Z * User.t) (request : Z * Z) =>
       let '(served, user) := acc in
       let '(allowed, user) :=
         rate_limited_request plan_limits user request.1 request.2 in
       ((if allowed then served + 1 else served)%Z, user))
    requests (0%Z, user).

(** A user of the free plan after 98 requests, and a free plan of 100
    requests a day. *)
Definition free_user : User.t := User.Make "free" 98 0.

Definition free_plan_100 : gmap string (option Z) :=
  {[ "free" := Some 100%Z; "premium" := None ]}.

(** ** Correlations as stored

    The correlation columns have four decimal places: a stored value is
    [n / 10000] for an integer [n].  [strength_of_ten_thousandths] is the
    classification read with the decimal thresholds 0.7000 and 0.3000. *)
Definition stored_correlation (n : Z) : Q := n # 10000.

Definition strength_of_ten_thousandths (n : Z) : string :=
  if (7000 <=? Z.abs n)%Z then "high"
  else if (3000 <=? Z.abs n)%Z then "medium"
  else "low".

(** * Properties *)

(** ** Decimal comparisons and arithmetic *)

Lemma Qltb_lt (a b : Q) : Qltb a b = true <-> (a < b)%Q.
Proof.
  unfold Qltb. rewrite Qlt_alt. destruct (a ?= b)%Q; split; congruence.
Qed.

Lemma Qltb_ge (a b : Q) : Qltb a b = false <-> (b <= a)%Q.
Proof.
  rewrite <- not_true_iff_false, Qltb_lt. split.
  - apply Qnot_lt_le.
  - apply Qle_not_lt.
Qed.

Lemma Qle_bool_gt (a b : Q) : Qle_bool a b = false <-> (b < a)%Q.
Proof.
  rewrite <- not_true_iff_false, Qle_bool_iff. split.
  - apply Qnot_le_lt.
  - apply Qlt_not_le.
Qed.

Lemma Qmax_0_r_case (a : Q) :
  (Qltb 0 a = true /\ Qmax a 0 == a)%Q \/ (Qltb 0 a = false /\ Qmax a 0 == 0)%Q.
Proof.
  destruct (Qltb 0 a) eqn:E.
  - left. split; [reflexivity|]. apply Qltb_lt in E.
    apply Q.max_l. apply Qlt_le_weak, E.
  - right. split; [reflexivity|]. apply Qltb_ge in E.
    apply Q.max_r, E.
Qed.

(** ** The yearly summary *)

(** The loop over the months never assigns [tax_owed] or [day_trade_tax]. *)
Lemma process_month_taxes_untouched (ys : YearState.t)
    (group : Z * Z * list Transaction.t) :
  YearlySummary.tax_owed (YearState.summary (process_month ys group))
  = YearlySummary.tax_owed (YearState.summary ys)
  /\ YearlySummary.day_trade_tax (YearState.summary (process_month ys group))
     = YearlySummary.day_trade_tax (YearState.summary ys).
Proof.
  destruct group as [month transactions].
  destruct ys as [[] holdings rc rd]. unfold process_month.
  destruct (calculate_month_taxes _ _ _ _ _) as [month_result holdings'].
  split; reflexivity.
Qed.

Lemma monthly_totals_taxes_zero (self : TaxCalculator.t) :
  YearlySummary.tax_owed (monthly_totals self) = 0%Q
  /\ YearlySummary.day_trade_tax (monthly_totals self) = 0%Q.
Proof.
  unfold monthly_totals.
  generalize (group_transactions_by_month (TaxCalculator.transactions self)).
  intros months.
  set (ys0 := YearState.Make _ _ _ _).
  assert (H0 : YearlySummary.tax_owed (YearState.summary ys0) = 0%Q
               /\ YearlySummary.day_trade_tax (YearState.summary ys0) = 0%Q)
    by (split; reflexivity).
  clearbody ys0. revert ys0 H0.
  induction months as [|group months IH]; intros ys0 H0; simpl.
  - exact H0.
  - apply IH. destruct (process_month_taxes_untouched ys0 group) as [-> ->].
    exact H0.
Qed.

(** [finish_summary] keeps the totals it reads. *)
Lemma finish_summary_totals (s : YearlySummary.t) :
  YearlySummary.total_gains (finish_summary s) = YearlySummary.total_gains s
  /\ YearlySummary.total_losses (finish_summary s)
     = YearlySummary.total_losses s
  /\ YearlySummary.day_trade_gains (finish_summary s)
     = YearlySummary.day_trade_gains s
  /\ YearlySummary.day_trade_losses (finish_summary s)
     = YearlySummary.day_trade_losses s
  /\ YearlySummary.irrf_paid (finish_summary s) = YearlySummary.irrf_paid s.
Proof. destruct s. repeat split; reflexivity. Qed.

Lemma finish_summary_tax_owed (s : YearlySummary.t) :
  YearlySummary.tax_owed s = 0%Q ->
  YearlySummary.day_trade_tax s = 0%Q ->
  (YearlySummary.tax_owed (finish_summary s)
   == Qmax
        (TAX_RATE
         * Qmax (YearlySummary.total_gains s - YearlySummary.total_losses s) 0
         + DAY_TRADE_TAX_RATE
           * Qmax (YearlySummary.day_trade_gains s
                   - YearlySummary.day_trade_losses s) 0
         - YearlySummary.irrf_paid s) 0)%Q.
Proof.
  destruct s as [y tg tl ng tax irrf dg dl dtax mb cl dcl pl pdl eg es].
  simpl. intros -> ->.
  apply Q.max_compat; [|reflexivity].
  destruct (Qmax_0_r_case (tg - tl)) as [[-> ->]|[-> ->]];
    destruct (Qmax_0_r_case (dg - dl)) as [[-> ->]|[-> ->]];
    unfold TAX_RATE, DAY_TRADE_TAX_RATE; ring.
Qed.

(** C6.  For every calculator, that is for every list of transactions of
    the year and every pair of balances carried in from the prior year's
    summary, the tax owed of the yearly summary equals
    max(15% x max(total gains - total losses, 0)
        + 20% x max(day-trade gains - day-trade losses, 0)
        - IRRF paid, 0),
    taken over the totals of that same summary, and it is never negative. *)
Theorem tax_owed_formula (self : TaxCalculator.t) :
  let s := calculate_taxes self in
  (YearlySummary.tax_owed s
   == Qmax
        ((15 # 100)
         * Qmax (YearlySummary.total_gains s - YearlySummary.total_losses s) 0
         + (20 # 100)
           * Qmax (YearlySummary.day_trade_gains s
                   - YearlySummary.day_trade_losses s) 0
         - YearlySummary.irrf_paid s) 0)%Q
  /\ (0 <= YearlySummary.tax_owed s)%Q.
Proof.
  intros s. subst s. unfold calculate_taxes.
  destruct (monthly_totals_taxes_zero self) as [Ht Hd].
  pose proof (finish_summary_tax_owed _ Ht Hd) as H.
  destruct (finish_summary_totals (monthly_totals self))
    as (-> & -> & -> & -> & ->).
  split.
  - exact H.
  - rewrite H. apply Q.le_max_r.
Qed.

(** ** The constructor's recursion *)

Lemma years_down_length (year : Z) (n : nat) : length (years_down year n) = n.
Proof. revert year. induction n as [|n IH]; intros year; simpl; auto. Qed.

Lemma years_down_last (year : Z) (n : nat) :
  last (years_down year (S n)) = Some (year - Z.of_nat n)%Z.
Proof.
  revert year. induction n as [|n IH]; intros year.
  - simpl. f_equal. lia.
  - change (years_down year (S (S n)))
      with (year :: years_down (year - 1) (S n)).
    rewrite last_cons, IH. f_equal. lia.
Qed.

(** C9 (what the code does).  Whatever the ledger holds, also when it holds
    no transaction at all, constructing the calculator of [year] runs the
    constructor for [year], [year - 1], [year - 2], ... as deep as the stack
    allows: the number of constructor bodies run is the depth budget, the
    oldest year reached is [year - depth], and the descent stops only when
    the call that exceeds the budget raises [RecursionError], which
    [get_previous_year_losses] swallows.  No base case depends on the
    transactions or on the year. *)
Theorem constructor_descends_to_stack_limit
    (ledger : Z -> list Transaction.t) (depth : nat) (year : Z) :
  (TaxCalculator_init ledger depth year).1 = years_down year depth
  /\ length (TaxCalculator_init ledger depth year).1 = depth
  /\ last (TaxCalculator_init ledger (S depth) year).1
     = Some (year - Z.of_nat depth)%Z
  /\ (TaxCalculator_init ledger 0 year).2 = Raises "RecursionError"
  /\ (TaxCalculator_init (fun _ => []) 1 year).2
     = Returns (TaxCalculator.Make year [] 0 0).
Proof.
  assert (H : forall d y, (TaxCalculator_init ledger d y).1 = years_down y d).
  { induction d as [|d IH]; intros y; [reflexivity|].
    simpl. specialize (IH (y - 1)%Z).
    destruct (TaxCalculator_init ledger d (y - 1)) as [calls c].
    simpl in *. now rewrite IH. }
  repeat split.
  - apply H.
  - rewrite H. apply years_down_length.
  - rewrite H. apply years_down_last.
Qed.

(** ** The monthly exemption *)

(** In the month's dictionary the exemption works as stated: an exempt
    month has no taxable gains, any other month is taxable on its whole
    net gain. *)
Lemma month_result_exemption (month : Z * Z) (st : MonthState.t) :
  let r := month_result month st in
  ((0 < MonthResult.net_gains r)%Q ->
   (MonthResult.sales_total r <= SWING_TRADE_EXEMPTION)%Q ->
   MonthResult.taxable_gains r = 0%Q
   /\ MonthResult.exempted_gains r = MonthResult.net_gains r)
  /\ ((0 < MonthResult.net_gains r)%Q ->
      (SWING_TRADE_EXEMPTION < MonthResult.sales_total r)%Q ->
      MonthResult.taxable_gains r = MonthResult.net_gains r
      /\ MonthResult.exempted_gains r = 0%Q).
Proof.
  intros r. subst r. unfold month_result.
  set (net := (MonthState.month_gains st - MonthState.month_losses st)%Q).
  set (sales := MonthState.month_sales_total st).
  destruct (Qltb 0 net) eqn:E1;
    destruct (Qle_bool sales SWING_TRADE_EXEMPTION) eqn:E2; simpl;
    try apply Qltb_ge in E1; try apply Qle_bool_gt in E2;
    try apply Qle_bool_iff in E2;
    split; intros Hnet Hsales; try (split; reflexivity); lra.
Qed.

(** C2 (what the code does).  The month of [swing_trade_month] has sales of
    R$6,000, below the exemption, and a net gain of R$1,000: its dictionary
    reports no taxable gains and R$1,000 of exempted gains.  The yearly
    total of gains nevertheless includes the R$1,000, and the tax owed is
    15% of it less the IRRF paid: R$149.70. *)
Theorem exempt_month_gain_is_taxed_in_year :
  let s := calculate_taxes (TaxCalculator.Make 2024 swing_trade_month 0 0) in
  (exists m, YearlySummary.monthly_breakdown s = [m]
     /\ (MonthResult.sales_total m == 6000)%Q
     /\ (MonthResult.net_gains m == 1000)%Q
     /\ (MonthResult.taxable_gains m == 0)%Q
     /\ (MonthResult.exempted_gains m == 1000)%Q)
  /\ (YearlySummary.total_gains s == 1000)%Q
  /\ (YearlySummary.irrf_paid s == 3 # 10)%Q
  /\ (YearlySummary.tax_owed s == 1497 # 10)%Q.
Proof.
  split.
  - eexists. split; [vm_compute; reflexivity|].
    repeat split; vm_compute; reflexivity.
  - repeat split; vm_compute; reflexivity.
Qed.

(** ** The day-trade balance carried into a month *)

(** C3 (what the code does).  The result of [calculate_month_taxes] does
    not depend on the day-trade balance it is given; with a day-trade gain
    of R$1,500 in the month and R$2,000 carried in, nothing is offset: the
    gain stays R$1,500, the amount used is 0 and the balance handed on is
    0, not R$500. *)
Theorem incoming_day_trade_losses_ignored :
  (forall transactions holdings month compensable_losses day_trade_losses,
      calculate_month_taxes transactions holdings month compensable_losses
        day_trade_losses
      = calculate_month_taxes transactions holdings month compensable_losses
          0%Q)
  /\ (let r := (calculate_month_taxes day_trade_month ∅ (2024, 1)%Z 0 2000).1 in
      (MonthResult.day_trade_gains r == 1500)%Q
      /\ (MonthResult.day_trade_losses_used r == 0)%Q
      /\ (MonthResult.remaining_day_trade_losses r == 0)%Q).
Proof.
  split.
  - reflexivity.
  - repeat split; vm_compute; reflexivity.
Qed.

(** ** IRRF and sales volume of matched sells *)

(** C5 (what the code does).  The sale value is read after
    [process_day_trades] has reduced the sell's quantity.  A sell of 100
    shares at $11 and R$5 is worth R$5,500; matched in full against a buy of
    the same day it adds nothing to the IRRF paid and to the sales volume,
    and matched for 40 shares it adds the value of the other 60 only. *)
Theorem matched_sell_value_is_reduced :
  (Transaction.total_value_brl (sell_of "VALE" 100 11 5 (jan 5)) == 5500)%Q
  /\ (let r := (calculate_month_taxes full_day_trade_day ∅ (2024, 1)%Z 0 0).1 in
      (MonthResult.irrf_paid r == 0)%Q /\ (MonthResult.sales_total r == 0)%Q)
  /\ (let r :=
        (calculate_month_taxes partial_day_trade_day ∅ (2024, 1)%Z 0 0).1 in
      (MonthResult.irrf_paid r == 3300 * IRRF_RATE)%Q
      /\ (MonthResult.sales_total r == 3300)%Q).
Proof. repeat split; vm_compute; reflexivity. Qed.

(** ** FIFO matching of a sell against the lots *)

Lemma total_quantity_nonneg (lots : list Holding.t) :
  Forall (fun lot => (0 <= Holding.quantity lot)%Q) lots ->
  (0 <= total_quantity lots)%Q.
Proof.
  induction 1 as [|lot lots Hlot _ IH]; simpl.
  - apply Qle_refl.
  - lra.
Qed.

(** Each leg of a portion is converted with its own exchange rate. *)
Lemma portion_gain_loss_formula (sell_transaction : Transaction.t)
    (holding : Holding.t) (q : Q) :
  (portion_gain_loss sell_transaction holding q
   == q * Transaction.price_usd sell_transaction
        * Transaction.exchange_rate sell_transaction
      - q * Holding.price holding * Holding.exchange_rate holding)%Q.
Proof. unfold portion_gain_loss. reflexivity. Qed.

(** The lots at the head whose quantities together stay below the request
    are consumed in full, oldest first, and removed. *)
Lemma fifo_loop_consumes_prefix (sell_transaction : Transaction.t)
    (pre rest : list Holding.t) :
  Forall (fun lot => (0 <= Holding.quantity lot)%Q) pre ->
  forall remaining_quantity total_gain_loss : Q,
    (total_quantity pre < remaining_quantity)%Q ->
    exists k g : Q,
      (k == remaining_quantity - total_quantity pre)%Q
      /\ (g == total_gain_loss + consumed_gain_loss sell_transaction pre)%Q
      /\ fifo_loop sell_transaction remaining_quantity total_gain_loss
           (pre ++ rest)
         = fifo_loop sell_transaction k g rest.
Proof.
  induction 1 as [|lot pre Hlot Hpre IH]; intros r g Hlt.
  - exists r, g. simpl. repeat split; ring.
  - simpl in Hlt. pose proof (total_quantity_nonneg pre Hpre) as Hnn.
    destruct (IH (r - Holding.quantity lot)%Q
                 (g + portion_gain_loss sell_transaction lot
                        (Holding.quantity lot))%Q) as (k & g' & Hk & Hg & E).
    { lra. }
    exists k, g'. split; [|split].
    + rewrite Hk. simpl. ring.
    + rewrite Hg. simpl. ring.
    + simpl.
      replace (Qltb 0 r) with true by (symmetry; apply Qltb_lt; lra).
      replace (Qle_bool (Holding.quantity lot) r) with true
        by (symmetry; apply Qle_bool_iff; lra).
      exact E.
Qed.

(** C7.  With [pre] the oldest lots, holding together less than the sell
    requests, and [h] the next lot: the lots of [pre] are consumed in full
    and removed, which leaves [k], the request less their quantity, to take
    from [h]; if [h] holds at most [k] it is consumed in full and removed and
    the loop goes on with the lots after it, otherwise [h] is split, [k] is
    taken from it and it stays at the head with the rest of its quantity.
    The gain or loss of a portion is its quantity times the sell's price and
    the sell's exchange rate, less its quantity times the lot's price and the
    lot's exchange rate.  With lots of 100 at $10 and 50 at $12, a sell of
    120 takes all of the first lot and 20 of the second and leaves one lot
    of 30 at $12. *)
Theorem fifo_drains_oldest_first (sell_transaction : Transaction.t)
    (pre : list Holding.t) (h : Holding.t) (post : list Holding.t) :
  Forall (fun lot => (0 <= Holding.quantity lot)%Q) pre ->
  (total_quantity pre < Transaction.quantity sell_transaction)%Q ->
  (exists k g : Q,
     (k == Transaction.quantity sell_transaction - total_quantity pre)%Q
     /\ (g == consumed_gain_loss sell_transaction pre)%Q
     /\ calculate_fifo_gain_loss sell_transaction (pre ++ h :: post)
        = if Qle_bool (Holding.quantity h) k
          then fifo_loop sell_transaction (k - Holding.quantity h)%Q
                 (g + portion_gain_loss sell_transaction h
                        (Holding.quantity h))%Q
                 post
          else ((g + portion_gain_loss sell_transaction h k)%Q,
                Holding.set_quantity h (Holding.quantity h - k)%Q :: post))
  /\ (forall (lot : Holding.t) (q : Q),
        (portion_gain_loss sell_transaction lot q
         == q * Transaction.price_usd sell_transaction
              * Transaction.exchange_rate sell_transaction
            - q * Holding.price lot * Holding.exchange_rate lot)%Q)
  /\ (forall (P R r1 r2 : Q) (d d1 d2 : Transaction.date_t),
        exists g q : Q,
          calculate_fifo_gain_loss (sell_of "VALE" 120 P R d)
            (two_lots r1 r2 d1 d2)
          = (g, [Holding.Make q 12 r2 d2 0])
          /\ (q == 30)%Q
          /\ (g == (100 * P * R - 100 * 10 * r1)
                   + (20 * P * R - 20 * 12 * r2))%Q).
Proof.
  intros Hpre Hlt. split; [|split].
  - destruct (fifo_loop_consumes_prefix sell_transaction pre (h :: post) Hpre
                (Transaction.quantity sell_transaction) 0%Q Hlt)
      as (k & g & Hk & Hg & E).
    exists k, g. split; [exact Hk|]. split; [rewrite Hg; ring|].
    unfold calculate_fifo_gain_loss. rewrite E. simpl.
    replace (Qltb 0 k) with true; [reflexivity|].
    symmetry. apply Qltb_lt. rewrite Hk. lra.
  - intros lot q. apply portion_gain_loss_formula.
  - intros P R r1 r2 d d1 d2. eexists _, _. split; [reflexivity|].
    split; [reflexivity|].
    unfold portion_gain_loss. simpl. ring.
Qed.

Lemma fifo_drains_oldest_first_witness :
  Forall (fun lot => (0 <= Holding.quantity lot)%Q)
    [Holding.Make 100 10 5 (jan 1) 0]
  /\ (total_quantity [Holding.Make 100 10 5 (jan 1) 0]
      < Transaction.quantity (sell_of "VALE" 120 15 5 (jan 9)))%Q
  /\ exists k g : Q,
      (k == 20)%Q /\ (g == 2500)%Q
      /\ calculate_fifo_gain_loss (sell_of "VALE" 120 15 5 (jan 9))
           ([Holding.Make 100 10 5 (jan 1) 0]
            ++ Holding.Make 50 12 5 (jan 5) 0 :: [])
         = ((g + portion_gain_loss (sell_of "VALE" 120 15 5 (jan 9))
                   (Holding.Make 50 12 5 (jan 5) 0) k)%Q,
            [Holding.set_quantity (Holding.Make 50 12 5 (jan 5) 0)
               (50 - k)%Q]).
Proof.
  assert (H1 : Forall (fun lot => (0 <= Holding.quantity lot)%Q)
                 [Holding.Make 100 10 5 (jan 1) 0]).
  { repeat constructor. simpl. discriminate. }
  assert (H2 : (total_quantity [Holding.Make 100 10 5 (jan 1) 0]
                < Transaction.quantity (sell_of "VALE" 120 15 5 (jan 9)))%Q).
  { reflexivity. }
  split; [exact H1|]. split; [exact H2|].
  destruct (fifo_drains_oldest_first (sell_of "VALE" 120 15 5 (jan 9))
              [Holding.Make 100 10 5 (jan 1) 0]
              (Holding.Make 50 12 5 (jan 5) 0) [] H1 H2)
    as [(k & g & Hk & Hg & E) _].
  exists k, g. split; [rewrite Hk; reflexivity|].
  split; [rewrite Hg; reflexivity|].
  rewrite E.
  replace (Qle_bool (Holding.quantity (Holding.Make 50 12 5 (jan 5) 0)) k)
    with false; [reflexivity|].
  symmetry. apply Qle_bool_gt. rewrite Hk. reflexivity.
Defined.

(** ** A sell of more than the lots hold *)

(** With a stack budget of at least one call the run returns a summary,
    whatever the ledger holds: nothing in the engine raises. *)
Lemma run_returns (ledger : Z -> list Transaction.t) (depth : nat) (year : Z) :
  exists s : YearlySummary.t, run ledger (S depth) year = Returns s.
Proof.
  unfold run. simpl.
  destruct (TaxCalculator_init ledger depth (year - 1)) as [calls c].
  simpl. eexists. reflexivity.
Qed.

(** C1 (as stated, refuted).  A sell of 50 shares with no prior buy is not
    reported: [calculate_fifo_gain_loss] returns a gain/loss of 0 over no
    lot, and the run over the ledger returns a summary with no gains, no
    losses and no tax owed instead of raising [DataIntegrityError]. *)
Lemma oversold_sell_is_not_reported :
  calculate_fifo_gain_loss (sell_of "VALE" 50 10 5 (jan 9)) [] = (0%Q, [])
  /\ run oversold_ledger 3 2024 <> Raises "DataIntegrityError"
  /\ exists s : YearlySummary.t,
      run oversold_ledger 3 2024 = Returns s
      /\ (YearlySummary.total_gains s == 0)%Q
      /\ (YearlySummary.total_losses s == 0)%Q
      /\ (YearlySummary.tax_owed s == 0)%Q.
Proof.
  split; [reflexivity|]. split.
  - destruct (run_returns oversold_ledger 2 2024) as [s ->]. discriminate.
  - eexists. split; [vm_compute; reflexivity|].
    repeat split; vm_compute; reflexivity.
Qed.

(** C1 (amended).  When the lots of the ticker hold less than the sell
    requests, [calculate_fifo_gain_loss] raises nothing: it consumes every
    lot, returns the gain or loss over these lots only (0 when there is
    none) and leaves the list of lots empty, with no lot of negative
    quantity; and the run it is part of returns its summary. *)
Theorem oversold_sell_returns_partial_result
    (sell_transaction : Transaction.t) (lots : list Holding.t) :
  Forall (fun lot => (0 <= Holding.quantity lot)%Q) lots ->
  (total_quantity lots < Transaction.quantity sell_transaction)%Q ->
  (exists g : Q,
     calculate_fifo_gain_loss sell_transaction lots = (g, [])
     /\ (g == consumed_gain_loss sell_transaction lots)%Q)
  /\ (forall (ledger : Z -> list Transaction.t) (depth : nat) (year : Z),
        exists s : YearlySummary.t, run ledger (S depth) year = Returns s).
Proof.
  intros Hlots Hlt. split.
  - destruct (fifo_loop_consumes_prefix sell_transaction lots [] Hlots
                (Transaction.quantity sell_transaction) 0%Q Hlt)
      as (k & g & _ & Hg & E).
    exists g. split.
    + unfold calculate_fifo_gain_loss.
      rewrite <- (app_nil_r lots) at 1. rewrite E. reflexivity.
    + rewrite Hg. ring.
  - apply run_returns.
Qed.

Lemma oversold_sell_returns_partial_result_witness :
  exists g : Q,
    calculate_fifo_gain_loss (sell_of "VALE" 120 15 5 (jan 9))
      [Holding.Make 100 10 5 (jan 1) 0]
    = (g, [])
    /\ (g == 2500)%Q.
Proof.
  assert (H1 : Forall (fun lot => (0 <= Holding.quantity lot)%Q)
                 [Holding.Make 100 10 5 (jan 1) 0]).
  { repeat constructor. simpl. discriminate. }
  assert (H2 : (total_quantity [Holding.Make 100 10 5 (jan 1) 0]
                < Transaction.quantity (sell_of "VALE" 120 15 5 (jan 9)))%Q).
  { reflexivity. }
  destruct (oversold_sell_returns_partial_result
              (sell_of "VALE" 120 15 5 (jan 9))
              [Holding.Make 100 10 5 (jan 1) 0] H1 H2)
    as [(g & E & Hg) _].
  exists g. split; [exact E|]. rewrite Hg. reflexivity.
Defined.

(** ** Grouping *)

Section GroupingFacts.
Context {K V : Type} `{EqDecision K}.

Lemma group_lookup_append (groups : list (K * list V)) (key k : K) (v : V) :
  group_lookup (group_append groups key v) k
  = if decide (k = key) then group_lookup groups k ++ [v]
    else group_lookup groups k.
Proof.
  induction groups as [|[k0 vs] rest IH]; simpl.
  - repeat case_decide; simplify_eq; reflexivity.
  - destruct (decide (k0 = key)) as [->|Hne]; simpl.
    + repeat case_decide; simplify_eq; reflexivity.
    + rewrite IH. repeat case_decide; simplify_eq; reflexivity.
Qed.

Lemma group_append_keys (groups : list (K * list V)) (key : K) (v : V) :
  (group_append groups key v).*1
  = if decide (key ∈ groups.*1) then groups.*1 else groups.*1 ++ [key].
Proof.
  induction groups as [|[k0 vs] rest IH].
  - reflexivity.
  - cbn [group_append].
    destruct (decide (k0 = key)) as [->|Hne]; rewrite !fmap_cons; cbn [fst].
    + rewrite decide_True by constructor. reflexivity.
    + rewrite IH. destruct (decide (key ∈ rest.*1)) as [Hin|Hnin].
      * rewrite decide_True by (now constructor). reflexivity.
      * rewrite decide_False; [reflexivity|].
        intros Hin. apply elem_of_cons in Hin as [->|Hin]; done.
Qed.

Lemma group_append_NoDup (groups : list (K * list V)) (key : K) (v : V) :
  NoDup groups.*1 -> NoDup (group_append groups key v).*1.
Proof.
  intros Hnd. rewrite group_append_keys. case_decide as Hin; [exact Hnd|].
  apply NoDup_app. split; [exact Hnd|]. split.
  - intros x Hx Hx'. apply list_elem_of_singleton in Hx'. now subst.
  - apply NoDup_singleton.
Qed.

Lemma group_lookup_elem (groups : list (K * list V)) (k : K) (vs : list V) :
  NoDup groups.*1 -> (k, vs) ∈ groups -> group_lookup groups k = vs.
Proof.
  induction groups as [|[k0 vs0] rest IH]; simpl; intros Hnd Hin.
  - inversion Hin.
  - apply NoDup_cons in Hnd as [Hk0 Hnd].
    apply elem_of_cons in Hin as [Heq|Hin].
    + simplify_eq. rewrite decide_True by reflexivity. reflexivity.
    + case_decide as Hk; [|now apply IH]. subst k0.
      exfalso. apply Hk0. apply list_elem_of_fmap. now exists (k, vs).
Qed.

Section Fold.
Context {A : Type} (key_of : A -> K) (value_of : A -> V).

Local Abbreviation step :=
  (fun (groups : list (K * list V)) (a : A) =>
     group_append groups (key_of a) (value_of a)).

Lemma group_fold_NoDup (l : list A) (groups : list (K * list V)) :
  NoDup groups.*1 -> NoDup (fold_left step l groups).*1.
Proof.
  revert groups. induction l as [|a l IH]; intros groups Hnd; simpl.
  - exact Hnd.
  - apply IH. now apply group_append_NoDup.
Qed.

Lemma group_fold_lookup (l : list A) (groups : list (K * list V)) (k : K) :
  group_lookup (fold_left step l groups) k
  = group_lookup groups k
    ++ (value_of <$> List.filter (fun a => bool_decide (key_of a = k)) l).
Proof.
  revert groups. induction l as [|a l IH]; intros groups; simpl.
  - now rewrite app_nil_r.
  - rewrite IH. cbv beta. rewrite group_lookup_append.
    destruct (decide (k = key_of a)) as [->|Hne].
    + rewrite bool_decide_eq_true_2 by reflexivity.
      rewrite fmap_cons, <- app_assoc. reflexivity.
    + rewrite bool_decide_eq_false_2 by (intros Heq; now apply Hne).
      reflexivity.
Qed.

Lemma group_fold_keys (l : list A) (groups : list (K * list V)) (a : A) :
  a ∈ l -> key_of a ∈ (fold_left step l groups).*1.
Proof.
  assert (Hmono : forall l groups k,
             k ∈ groups.*1 -> k ∈ (fold_left step l groups).*1).
  { clear l groups a. induction l as [|a l IH]; intros groups k Hk; simpl.
    - exact Hk.
    - apply IH. cbv beta. rewrite group_append_keys.
      case_decide; [exact Hk|]. apply elem_of_app. now left. }
  revert groups. induction l as [|b l IH]; intros groups Hin; simpl.
  - inversion Hin.
  - apply elem_of_cons in Hin as [->|Hin]; [|now apply IH].
    apply Hmono. cbv beta. rewrite group_append_keys.
    case_decide as Hk; [exact Hk|].
    apply elem_of_app. right. constructor.
Qed.

(** A group of [group_by] holds the values of the elements with its
    key, in the order of the list, and every key has one group. *)
Lemma group_by_elem (l : list A) (k : K) (vs : list V) :
  (k, vs) ∈ group_by key_of value_of l ->
  vs = value_of <$> List.filter (fun a => bool_decide (key_of a = k)) l.
Proof.
  intros Hin. unfold group_by in *.
  assert (Hnd : NoDup (fold_left step l []).*1)
    by (apply group_fold_NoDup; simpl; constructor).
  rewrite <- (group_lookup_elem _ k vs Hnd Hin).
  rewrite (group_fold_lookup l [] k). reflexivity.
Qed.

Lemma group_by_NoDup (l : list A) :
  NoDup (group_by key_of value_of l).*1.
Proof. apply (group_fold_NoDup l []). simpl. constructor. Qed.

Lemma group_by_key (l : list A) (a : A) :
  a ∈ l -> exists vs, (key_of a, vs) ∈ group_by key_of value_of l.
Proof.
  intros Hin. pose proof (group_fold_keys l [] a Hin) as Hk.
  apply list_elem_of_fmap in Hk as ([k vs] & Hk & Hin').
  simpl in Hk. subst k. now exists vs.
Qed.
End Fold.
End GroupingFacts.

(** ** Day-trade matching: what a match changes *)

Lemma same_identity_refl (t : Transaction.t) : same_identity t t.
Proof.
  exists (Transaction.quantity t), (Transaction.is_day_trade t).
  destruct t. reflexivity.
Qed.

Lemma same_identity_assign (t t' : Transaction.t) (q : Q) (b : bool) :
  same_identity t t' ->
  same_identity t
    (Transaction.set_is_day_trade (Transaction.set_quantity t' q) b).
Proof. intros (q0 & b0 & ->). exists q, b. destruct t. reflexivity. Qed.

Lemma same_identity_fields (t t' : Transaction.t) :
  same_identity t t' ->
  Transaction.ticker t' = Transaction.ticker t
  /\ Transaction.transaction_type t' = Transaction.transaction_type t
  /\ Transaction.price_usd t' = Transaction.price_usd t
  /\ Transaction.exchange_rate t' = Transaction.exchange_rate t
  /\ Transaction.brokerage_fee t' = Transaction.brokerage_fee t.
Proof. intros (q & b & ->). destruct t. repeat split; reflexivity. Qed.

Lemma Forall2_insert_right {A B : Type} (P : A -> B -> Prop)
    (l : list A) (k : list B) (i : nat) (y y' : B) :
  Forall2 P l k -> k !! i = Some y ->
  (forall x, P x y -> P x y') ->
  Forall2 P l (<[i:=y']> k).
Proof.
  intros H Hi Hstep.
  destruct (Forall2_lookup_r P l k i y H Hi) as (x & Hx & Hxy).
  rewrite <- (list_insert_id l i x Hx).
  apply Forall2_insert; [exact H|]. apply Hstep, Hxy.
Qed.

(** A match touches the two transactions it pairs and no other. *)
Lemma match_pair_frame (acc : list Transaction.t * DayTradeResult.t)
    (b s p : nat) :
  p <> b -> p <> s -> (match_pair acc b s).1 !! p = acc.1 !! p.
Proof.
  intros Hb Hs. destruct acc as [store result]. unfold match_pair.
  destruct (store !! b) as [buy|]; [|reflexivity].
  destruct (store !! s) as [sell|]; [|reflexivity].
  destruct (_ && _); [|reflexivity].
  destruct (Qltb 0 _); simpl;
    rewrite !list_lookup_insert_ne by (intros ->; congruence); reflexivity.
Qed.

Lemma match_pair_identity (day : list Transaction.t)
    (acc : list Transaction.t * DayTradeResult.t) (b s : nat) :
  Forall2 same_identity day acc.1 ->
  Forall2 same_identity day (match_pair acc b s).1.
Proof.
  destruct acc as [store result]. simpl. intros H. unfold match_pair.
  destruct (store !! b) as [buy|] eqn:Eb; [|exact H].
  destruct (store !! s) as [sell|] eqn:Es; [|exact H].
  destruct (_ && _); [|exact H].
  assert (H' : Forall2 same_identity day
                 (<[s:=Transaction.set_is_day_trade
                         (Transaction.set_quantity sell
                            (Transaction.quantity sell
                             - Qmin (Transaction.quantity buy)
                                 (Transaction.quantity sell))%Q) true]>
                    (<[b:=Transaction.set_is_day_trade
                            (Transaction.set_quantity buy
                               (Transaction.quantity buy
                                - Qmin (Transaction.quantity buy)
                                    (Transaction.quantity sell))%Q) true]>
                       store))).
  { destruct (decide (b = s)) as [->|Hne].
    - rewrite list_insert_insert_eq.
      eapply Forall2_insert_right; [exact H|exact Es|].
      intros x Hx. now apply same_identity_assign.
    - eapply Forall2_insert_right.
      + eapply Forall2_insert_right; [exact H|exact Eb|].
        intros x Hx. now apply same_identity_assign.
      + rewrite list_lookup_insert_ne by exact Hne. exact Es.
      + intros x Hx. now apply same_identity_assign. }
  destruct (Qltb 0 _); exact H'.
Qed.

Section MatchFolds.
Variable day : list Transaction.t.

Lemma match_sells_frame (sells : list nat) (b p : nat)
    (acc : list Transaction.t * DayTradeResult.t) :
  p <> b -> p ∉ sells ->
  (fold_left (fun acc sell => match_pair acc b sell) sells acc).1 !! p
  = acc.1 !! p.
Proof.
  intros Hb. revert acc.
  induction sells as [|s sells IH]; intros acc Hp; simpl; [reflexivity|].
  apply not_elem_of_cons in Hp as [Hs Hp].
  rewrite IH by exact Hp. now apply match_pair_frame.
Qed.

Lemma match_sells_identity (sells : list nat) (b : nat)
    (acc : list Transaction.t * DayTradeResult.t) :
  Forall2 same_identity day acc.1 ->
  Forall2 same_identity day
    (fold_left (fun acc sell => match_pair acc b sell) sells acc).1.
Proof.
  revert acc. induction sells as [|s sells IH]; intros acc H; simpl.
  - exact H.
  - apply IH. now apply match_pair_identity.
Qed.

Lemma match_buys_frame (buys sells : list nat) (p : nat)
    (acc : list Transaction.t * DayTradeResult.t) :
  p ∉ buys -> p ∉ sells ->
  (fold_left
     (fun acc buy =>
        fold_left (fun acc sell => match_pair acc buy sell) sells acc)
     buys acc).1 !! p
  = acc.1 !! p.
Proof.
  intros Hb Hs. revert acc Hb.
  induction buys as [|b buys IH]; intros acc Hb; simpl; [reflexivity|].
  apply not_elem_of_cons in Hb as [Hpb Hb].
  rewrite IH by exact Hb. now apply match_sells_frame.
Qed.

Lemma match_buys_identity (buys sells : list nat)
    (acc : list Transaction.t * DayTradeResult.t) :
  Forall2 same_identity day acc.1 ->
  Forall2 same_identity day
    (fold_left
       (fun acc buy =>
          fold_left (fun acc sell => match_pair acc buy sell) sells acc)
       buys acc).1.
Proof.
  revert acc. induction buys as [|b buys IH]; intros acc H; simpl.
  - exact H.
  - apply IH. now apply match_sells_identity.
Qed.

Lemma not_elem_of_filter (f : nat -> bool) (refs : list nat) (p : nat) :
  p ∉ refs -> p ∉ List.filter f refs.
Proof.
  intros Hp Hin. apply Hp. apply list_elem_of_In in Hin.
  apply filter_In in Hin as [Hin _]. now apply list_elem_of_In.
Qed.

(** The matching of one ticker touches the transactions of that ticker
    only. *)
Lemma match_ticker_frame (refs : list nat) (p : nat)
    (acc : list Transaction.t * DayTradeResult.t) :
  p ∉ refs -> (match_ticker acc refs).1 !! p = acc.1 !! p.
Proof.
  intros Hp. unfold match_ticker.
  apply match_buys_frame; now apply not_elem_of_filter.
Qed.

Lemma match_ticker_identity (refs : list nat)
    (acc : list Transaction.t * DayTradeResult.t) :
  Forall2 same_identity day acc.1 ->
  Forall2 same_identity day (match_ticker acc refs).1.
Proof. intros H. unfold match_ticker. now apply match_buys_identity. Qed.

Lemma match_groups_frame (groups : list (string * list nat)) (p : nat)
    (acc : list Transaction.t * DayTradeResult.t) :
  (forall g, g ∈ groups -> p ∉ g.2) ->
  (fold_left (fun acc group => match_ticker acc group.2) groups acc).1 !! p
  = acc.1 !! p.
Proof.
  revert acc. induction groups as [|g groups IH]; intros acc Hp; simpl.
  - reflexivity.
  - rewrite IH by (intros g' Hg'; apply Hp; now constructor).
    apply match_ticker_frame. apply Hp. constructor.
Qed.

Lemma match_groups_identity (groups : list (string * list nat))
    (acc : list Transaction.t * DayTradeResult.t) :
  Forall2 same_identity day acc.1 ->
  Forall2 same_identity day
    (fold_left (fun acc group => match_ticker acc group.2) groups acc).1.
Proof.
  revert acc. induction groups as [|g groups IH]; intros acc H; simpl.
  - exact H.
  - apply IH. now apply match_ticker_identity.
Qed.
End MatchFolds.

(** [process_day_trades] assigns to [quantity] and [is_day_trade] only. *)
Lemma process_day_trades_identity (day : list Transaction.t) :
  Forall2 same_identity day (process_day_trades day).1.
Proof.
  unfold process_day_trades. apply match_groups_identity. simpl.
  induction day; constructor; auto using same_identity_refl.
Qed.

(** ** The references grouped under a ticker *)

Lemma filter_imap_refs (k : string) (l : list Transaction.t) (n : nat) :
  (fun it : nat * Transaction.t => it.1)
  <$> List.filter
        (fun it : nat * Transaction.t =>
           bool_decide (Transaction.ticker it.2 = k))
        (imap (fun i t => (n + i, t)) l)
  = refs_from n k l.
Proof.
  revert n. induction l as [|t l IH]; intros n; [reflexivity|].
  rewrite imap_cons. cbn [List.filter refs_from snd].
  rewrite (imap_ext _ (fun i t => (S n + i, t)) l)
    by (intros i t' _; simpl; f_equal; lia).
  destruct (bool_decide (Transaction.ticker t = k)).
  - rewrite fmap_cons, IH. cbn [fst]. f_equal. lia.
  - apply IH.
Qed.

Lemma ticker_group_refs (day : list Transaction.t) (k : string)
    (refs : list nat) :
  (k, refs) ∈ ticker_transactions day -> refs = refs_from 0 k day.
Proof.
  intros Hin. apply group_by_elem in Hin. rewrite Hin.
  apply (filter_imap_refs k day 0).
Qed.

Lemma refs_from_app (n : nat) (k : string) (l1 l2 : list Transaction.t) :
  refs_from n k (l1 ++ l2)
  = refs_from n k l1 ++ refs_from (n + length l1) k l2.
Proof.
  revert n. induction l1 as [|t l1 IH]; intros n; simpl.
  - now rewrite Nat.add_0_r.
  - rewrite IH. replace (S n + length l1) with (n + S (length l1)) by lia.
    destruct (bool_decide _); reflexivity.
Qed.

Lemma refs_from_none (n : nat) (k : string) (l : list Transaction.t) :
  Forall (fun t => Transaction.ticker t <> k) l -> refs_from n k l = [].
Proof.
  intros H. revert n. induction H as [|t l Ht _ IH]; intros n; simpl.
  - reflexivity.
  - rewrite bool_decide_eq_false_2 by exact Ht. apply IH.
Qed.

Lemma refs_from_elem (n : nat) (k : string) (l : list Transaction.t)
    (r : nat) :
  r ∈ refs_from n k l ->
  exists t, l !! (r - n) = Some t /\ Transaction.ticker t = k /\ n <= r.
Proof.
  revert n. induction l as [|t l IH]; intros n Hin; simpl in Hin.
  - inversion Hin.
  - destruct (bool_decide (Transaction.ticker t = k)) eqn:E.
    + apply elem_of_cons in Hin as [->|Hin].
      * exists t. rewrite Nat.sub_diag. apply bool_decide_eq_true in E.
        repeat split; [exact E|lia].
      * destruct (IH _ Hin) as (t' & Hl & Hk & Hle).
        exists t'. replace (r - n) with (S (r - S n)) by lia.
        repeat split; [exact Hl|exact Hk|lia].
    + destruct (IH _ Hin) as (t' & Hl & Hk & Hle).
      exists t'. replace (r - n) with (S (r - S n)) by lia.
      repeat split; [exact Hl|exact Hk|lia].
Qed.

(** A day on which ticker [T] has exactly two transactions, [x] then [y]. *)
Section PairOfTheDay.
Variables (T : string) (l1 l2 l3 : list Transaction.t)
          (x y : Transaction.t).
Hypothesis Hx : Transaction.ticker x = T.
Hypothesis Hy : Transaction.ticker y = T.
Hypothesis Hothers :
  Forall (fun t => Transaction.ticker t <> T) (l1 ++ l2 ++ l3).

Local Abbreviation the_day := (l1 ++ x :: l2 ++ y :: l3).
Local Abbreviation ref_x := (length l1).
Local Abbreviation ref_y := (S (length l1 + length l2)).

Lemma pair_lookup_x : the_day !! ref_x = Some x.
Proof. now rewrite list_lookup_middle. Qed.

Lemma pair_lookup_y : the_day !! ref_y = Some y.
Proof.
  rewrite lookup_app_r by lia.
  replace (S (length l1 + length l2) - length l1) with (S (length l2 + 0))
    by lia.
  simpl. rewrite lookup_app_r by lia.
  now replace (length l2 + 0 - length l2) with 0 by lia.
Qed.

Lemma pair_refs : refs_from 0 T the_day = [ref_x; ref_y].
Proof.
  apply Forall_app in Hothers as [H1 H23].
  apply Forall_app in H23 as [H2 H3].
  rewrite refs_from_app, (refs_from_none _ _ l1 H1).
  simpl. rewrite bool_decide_eq_true_2 by exact Hx.
  rewrite refs_from_app, (refs_from_none _ _ l2 H2). simpl.
  rewrite bool_decide_eq_true_2 by exact Hy.
  rewrite (refs_from_none _ _ l3 H3). reflexivity.
Qed.

(** The group of another ticker refers to neither [x] nor [y]. *)
Lemma other_group_refs (k : string) (refs : list nat) :
  (k, refs) ∈ ticker_transactions the_day -> k <> T ->
  (ref_x ∉ refs) /\ (ref_y ∉ refs).
Proof.
  intros Hin Hk. apply ticker_group_refs in Hin. subst refs.
  split; intros Hr; apply refs_from_elem in Hr as (t & Hl & Ht & _);
    rewrite Nat.sub_0_r in Hl.
  - rewrite pair_lookup_x in Hl. congruence.
  - rewrite pair_lookup_y in Hl. congruence.
Qed.

(** The groups of the day: those before the group of [T], the group of
    [T] with the two references, those after. *)
Lemma pair_groups :
  exists g1 g2 : list (string * list nat),
    ticker_transactions the_day = g1 ++ (T, [ref_x; ref_y]) :: g2
    /\ (forall g, g ∈ g1 ++ g2 -> (ref_x ∉ g.2) /\ (ref_y ∉ g.2)).
Proof.
  assert (Hin : exists refs, (T, refs) ∈ ticker_transactions the_day).
  { rewrite <- Hx.
    apply (group_by_key
             (fun it : nat * Transaction.t => Transaction.ticker it.2)
             (fun it : nat * Transaction.t => it.1)
             (imap pair the_day) (ref_x, x)).
    apply list_elem_of_lookup. exists ref_x.
    rewrite list_lookup_imap, pair_lookup_x. reflexivity. }
  destruct Hin as [refs Hin].
  pose proof (ticker_group_refs _ _ _ Hin) as Hrefs.
  rewrite pair_refs in Hrefs. subst refs.
  destruct (list_elem_of_split _ _ Hin) as (g1 & g2 & Hsplit).
  exists g1, g2. split; [exact Hsplit|].
  intros [k refs] Hg. simpl.
  apply (other_group_refs k refs).
  - rewrite Hsplit. apply elem_of_app in Hg as [Hg|Hg].
    + apply elem_of_app. now left.
    + apply elem_of_app. right. now constructor.
  - pose proof (group_by_NoDup
                  (fun it : nat * Transaction.t => Transaction.ticker it.2)
                  (fun it : nat * Transaction.t => it.1)
                  (imap pair the_day)) as Hnd.
    fold (ticker_transactions the_day) in Hnd. rewrite Hsplit in Hnd.
    rewrite fmap_app, fmap_cons in Hnd. simpl in Hnd.
    apply NoDup_app in Hnd as (_ & Hdisj & Hnd2).
    apply NoDup_cons in Hnd2 as [HT _].
    intros ->. apply elem_of_app in Hg as [Hg|Hg].
    + apply (Hdisj T).
      * apply list_elem_of_fmap. now exists (T, refs).
      * constructor.
    + apply HT. apply list_elem_of_fmap. now exists (T, refs).
Qed.
End PairOfTheDay.

(** ** A buy and a sell of the same quantity *)

Lemma Qmin_same (a b : Q) :
  (a == b)%Q -> (a - Qmin a b == 0)%Q /\ (b - Qmin a b == 0)%Q.
Proof.
  intros Hab. assert (Hmin : (Qmin a b == a)%Q).
  { apply Q.min_l. rewrite Hab. apply Qle_refl. }
  rewrite Hmin. split; [ring|rewrite Hab; ring].
Qed.

(** Matching a buy and a sell of equal positive quantity leaves both with
    quantity zero and marked as day trades. *)
Lemma match_pair_full (store : list Transaction.t)
    (result : DayTradeResult.t) (b s : nat) (buy sell : Transaction.t) :
  store !! b = Some buy -> store !! s = Some sell -> b <> s ->
  (0 < Transaction.quantity buy)%Q ->
  (Transaction.quantity buy == Transaction.quantity sell)%Q ->
  exists (buy' sell' : Transaction.t),
    (match_pair (store, result) b s).1 !! b = Some buy'
    /\ (match_pair (store, result) b s).1 !! s = Some sell'
    /\ Transaction.is_day_trade buy' = true
    /\ (Transaction.quantity buy' == 0)%Q
    /\ Transaction.is_day_trade sell' = true
    /\ (Transaction.quantity sell' == 0)%Q.
Proof.
  intros Eb Es Hne Hpos Hsame. unfold match_pair. rewrite Eb, Es.
  replace (Qltb 0 (Transaction.quantity buy)) with true
    by (symmetry; now apply Qltb_lt).
  replace (Qltb 0 (Transaction.quantity sell)) with true
    by (symmetry; apply Qltb_lt; now rewrite <- Hsame).
  destruct (Qmin_same _ _ Hsame) as [Hb0 Hs0].
  pose proof (lookup_lt_Some _ _ _ Eb) as Hlb.
  pose proof (lookup_lt_Some _ _ _ Es) as Hls.
  eexists _, _. simpl.
  destruct (Qltb 0 _); simpl;
    (split; [rewrite list_lookup_insert_ne by (intros ->; now apply Hne);
             apply list_lookup_insert_eq; exact Hlb|]);
    (split; [apply list_lookup_insert_eq; now rewrite length_insert|]);
    repeat split; assumption.
Qed.

Lemma match_ticker_pair (acc : list Transaction.t * DayTradeResult.t)
    (i j : nat) (x y : Transaction.t) :
  i <> j -> acc.1 !! i = Some x -> acc.1 !! j = Some y ->
  (Transaction.transaction_type x = "buy"
   /\ Transaction.transaction_type y = "sell")
  \/ (Transaction.transaction_type x = "sell"
      /\ Transaction.transaction_type y = "buy") ->
  (0 < Transaction.quantity x)%Q ->
  (Transaction.quantity x == Transaction.quantity y)%Q ->
  exists (x' y' : Transaction.t),
    (match_ticker acc [i; j]).1 !! i = Some x'
    /\ (match_ticker acc [i; j]).1 !! j = Some y'
    /\ Transaction.is_day_trade x' = true
    /\ (Transaction.quantity x' == 0)%Q
    /\ Transaction.is_day_trade y' = true
    /\ (Transaction.quantity y' == 0)%Q.
Proof.
  intros Hne Ei Ej Htypes Hpos Hsame. destruct acc as [store result].
  simpl in Ei, Ej. unfold match_ticker. simpl. unfold has_type.
  rewrite Ei, Ej. destruct Htypes as [[-> ->]|[-> ->]]; simpl.
  - apply (match_pair_full store result i j x y); assumption.
  - destruct (match_pair_full store result j i y x) as
        (y' & x' & H1 & H2 & H3 & H4 & H5 & H6);
      try assumption.
    + intros ->. now apply Hne.
    + now rewrite <- Hsame.
    + now symmetry.
    + exists x', y'. repeat split; assumption.
Qed.

Section PairMatched.
Variables (T : string) (l1 l2 l3 : list Transaction.t)
          (x y : Transaction.t).
Hypothesis Hx : Transaction.ticker x = T.
Hypothesis Hy : Transaction.ticker y = T.
Hypothesis Hothers :
  Forall (fun t => Transaction.ticker t <> T) (l1 ++ l2 ++ l3).
Hypothesis Htypes :
  (Transaction.transaction_type x = "buy"
   /\ Transaction.transaction_type y = "sell")
  \/ (Transaction.transaction_type x = "sell"
      /\ Transaction.transaction_type y = "buy").
Hypothesis Hpos : (0 < Transaction.quantity x)%Q.
Hypothesis Hsame : (Transaction.quantity x == Transaction.quantity y)%Q.

Local Abbreviation the_day := (l1 ++ x :: l2 ++ y :: l3).
Local Abbreviation ref_x := (length l1).
Local Abbreviation ref_y := (S (length l1 + length l2)).

(** After [process_day_trades] both transactions are marked and have no
    quantity left. *)
Lemma process_day_trades_pair_lookup :
  exists (x' y' : Transaction.t),
    (process_day_trades the_day).1 !! ref_x = Some x'
    /\ (process_day_trades the_day).1 !! ref_y = Some y'
    /\ Transaction.is_day_trade x' = true
    /\ (Transaction.quantity x' == 0)%Q
    /\ Transaction.is_day_trade y' = true
    /\ (Transaction.quantity y' == 0)%Q.
Proof.
  destruct (pair_groups T l1 l2 l3 x y Hx Hy Hothers)
    as (g1 & g2 & Hsplit & Hfar).
  unfold process_day_trades. rewrite Hsplit, fold_left_app. simpl.
  set (acc1 := fold_left _ g1 _).
  assert (E1i : acc1.1 !! ref_x = Some x).
  { unfold acc1. rewrite match_groups_frame.
    - apply pair_lookup_x.
    - intros g Hg. apply Hfar. apply elem_of_app. now left. }
  assert (E1j : acc1.1 !! ref_y = Some y).
  { unfold acc1. rewrite match_groups_frame.
    - apply pair_lookup_y.
    - intros g Hg. apply Hfar. apply elem_of_app. now left. }
  destruct (match_ticker_pair acc1 ref_x ref_y x y) as
      (x' & y' & H1 & H2 & H3);
    try assumption.
  { lia. }
  exists x', y'.
  rewrite !match_groups_frame
    by (intros g Hg; apply Hfar; apply elem_of_app; now right).
  split; [exact H1|]. split; [exact H2|exact H3].
Qed.

(** The day as [process_day_trades] leaves it. *)
Lemma process_day_trades_pair :
  exists (l1' l2' l3' : list Transaction.t) (x' y' : Transaction.t),
    (process_day_trades the_day).1 = l1' ++ x' :: l2' ++ y' :: l3'
    /\ Forall2 same_identity l1 l1'
    /\ Forall2 same_identity l2 l2'
    /\ Forall2 same_identity l3 l3'
    /\ Transaction.ticker x' = T
    /\ Transaction.is_day_trade x' = true
    /\ (Transaction.quantity x' == 0)%Q
    /\ Transaction.ticker y' = T
    /\ Transaction.is_day_trade y' = true
    /\ (Transaction.quantity y' == 0)%Q.
Proof.
  pose proof (process_day_trades_identity the_day) as Hid.
  destruct process_day_trades_pair_lookup
    as (x' & y' & Ei & Ej & Hfx & Hqx & Hfy & Hqy).
  apply Forall2_app_inv_l in Hid as (l1' & k1 & H1 & Hk1 & E).
  apply Forall2_cons_inv_l in Hk1 as (x'' & k2 & Hxx & Hk2 & ->).
  apply Forall2_app_inv_l in Hk2 as (l2' & k3 & H2 & Hk3 & ->).
  apply Forall2_cons_inv_l in Hk3 as (y'' & l3' & Hyy & H3 & ->).
  pose proof (Forall2_length _ _ _ H1) as Hlen1.
  pose proof (Forall2_length _ _ _ H2) as Hlen2.
  rewrite E in Ei, Ej.
  rewrite Hlen1, list_lookup_middle in Ei by reflexivity.
  rewrite Hlen1, Hlen2 in Ej.
  rewrite lookup_app_r in Ej by lia.
  replace (S (length l1' + length l2') - length l1')
    with (S (length l2' + 0)) in Ej by lia.
  simpl in Ej. rewrite lookup_app_r in Ej by lia.
  replace (length l2' + 0 - length l2') with 0 in Ej by lia.
  simpl in Ej. simplify_eq.
  exists l1', l2', l3', x', y'.
  apply same_identity_fields in Hxx as (Htx & _).
  apply same_identity_fields in Hyy as (Hty & _).
  repeat split; try assumption; congruence.
Qed.
End PairMatched.

(** ** Normal-trade processing of a transaction *)

(** A transaction marked as day trade is skipped by normal-trade
    processing, whatever quantity it has left. *)
Lemma process_transaction_marked (st : MonthState.t) (t : Transaction.t) :
  Transaction.is_day_trade t = true ->
  normal_part (process_transaction st t) = normal_part st.
Proof.
  intros Hflag. destruct st. unfold process_transaction. rewrite Hflag.
  destruct (String.eqb (Transaction.transaction_type t) "sell");
    [reflexivity|].
  rewrite andb_false_r. reflexivity.
Qed.

(** Normal-trade processing reads the normal part of the state only. *)
Lemma process_transaction_normal (st1 st2 : MonthState.t)
    (t : Transaction.t) :
  normal_part st1 = normal_part st2 ->
  normal_part (process_transaction st1 t)
  = normal_part (process_transaction st2 t).
Proof.
  destruct st1, st2. unfold normal_part. simpl. intros [= -> -> -> -> ->].
  unfold process_transaction.
  destruct (String.eqb (Transaction.transaction_type t) "sell").
  - destruct (negb (Transaction.is_day_trade t)); [|reflexivity].
    destruct (calculate_fifo_gain_loss _ _) as [gain_loss lots].
    destruct (Qltb 0 gain_loss); [|reflexivity].
    destruct (Qltb 0 _); reflexivity.
  - destruct (_ && _); reflexivity.
Qed.

Lemma fold_process_transaction_normal (l : list Transaction.t)
    (st1 st2 : MonthState.t) :
  normal_part st1 = normal_part st2 ->
  normal_part (fold_left process_transaction l st1)
  = normal_part (fold_left process_transaction l st2).
Proof.
  revert st1 st2. induction l as [|t l IH]; intros st1 st2 H; simpl.
  - exact H.
  - apply IH. now apply process_transaction_normal.
Qed.

(** A transaction changes the lots of its own ticker only. *)
Lemma process_transaction_other_ticker (st : MonthState.t)
    (t : Transaction.t) (T : string) :
  Transaction.ticker t <> T ->
  MonthState.holdings (process_transaction st t) !! T
  = MonthState.holdings st !! T.
Proof.
  intros Hne. destruct st. unfold process_transaction.
  destruct (String.eqb (Transaction.transaction_type t) "sell").
  - destruct (negb (Transaction.is_day_trade t)); [|reflexivity].
    destruct (calculate_fifo_gain_loss _ _) as [gain_loss lots].
    destruct (Qltb 0 gain_loss); [destruct (Qltb 0 _)|]; simpl;
      now rewrite lookup_insert_ne.
  - destruct (_ && _); simpl; [now rewrite lookup_insert_ne|reflexivity].
Qed.

Lemma fold_process_transaction_lots (l : list Transaction.t)
    (st : MonthState.t) (T : string) :
  Forall (fun t => Transaction.ticker t <> T
                   \/ Transaction.is_day_trade t = true) l ->
  MonthState.holdings (fold_left process_transaction l st) !! T
  = MonthState.holdings st !! T.
Proof.
  intros H. revert st. induction H as [|t l Ht _ IH]; intros st; simpl.
  - reflexivity.
  - rewrite IH. destruct Ht as [Ht|Ht].
    + now apply process_transaction_other_ticker.
    + pose proof (process_transaction_marked st t Ht) as E.
      unfold normal_part in E. now injection E as _ _ _ _ ->.
Qed.

(** The day's processing, split after the day-trade bookkeeping. *)
Lemma process_day_unfold (st : MonthState.t)
    (day_transactions : list Transaction.t) :
  exists st0 : MonthState.t,
    normal_part st0 = normal_part st
    /\ process_day st day_transactions
       = fold_left process_transaction
           (process_day_trades day_transactions).1 st0.
Proof.
  unfold process_day.
  destruct (process_day_trades day_transactions) as [day' results].
  destruct st. destruct (_ && _); eexists; (split; [|reflexivity]); reflexivity.
Qed.

Lemma same_identity_other_ticker (T : string) (l l' : list Transaction.t) :
  Forall (fun t => Transaction.ticker t <> T) l ->
  Forall2 same_identity l l' ->
  Forall (fun t => Transaction.ticker t <> T
                   \/ Transaction.is_day_trade t = true) l'.
Proof.
  intros Hl H. induction H as [|t t' l l' Ht _ IH]; constructor.
  - left. apply same_identity_fields in Ht as (-> & _).
    now inversion Hl.
  - apply IH. now inversion Hl.
Qed.

(** C8 (amended).  On a day on which the only transactions of ticker [T]
    are one buy and one sell of the same positive quantity, in either order
    and among transactions of other tickers, the engine handles the pair as
    a day trade in full: after the
    matching both are marked and have no quantity left; processing the day
    leaves the lots of [T] as they were before the day, whatever they were
    (no lot consumed, none added); and the month's gains, losses,
    compensable-loss balance and lots after the day are those obtained by
    processing the day's other transactions alone. *)
Theorem day_trade_pair_is_isolated (T : string)
    (l1 l2 l3 : list Transaction.t) (x y : Transaction.t)
    (st : MonthState.t) :
  Transaction.ticker x = T ->
  Transaction.ticker y = T ->
  Forall (fun t => Transaction.ticker t <> T) (l1 ++ l2 ++ l3) ->
  (Transaction.transaction_type x = "buy"
   /\ Transaction.transaction_type y = "sell")
  \/ (Transaction.transaction_type x = "sell"
      /\ Transaction.transaction_type y = "buy") ->
  (0 < Transaction.quantity x)%Q ->
  (Transaction.quantity x == Transaction.quantity y)%Q ->
  exists (l1' l2' l3' : list Transaction.t) (x' y' : Transaction.t),
    (process_day_trades (l1 ++ x :: l2 ++ y :: l3)).1
    = l1' ++ x' :: l2' ++ y' :: l3'
    /\ Forall2 same_identity l1 l1'
    /\ Forall2 same_identity l2 l2'
    /\ Forall2 same_identity l3 l3'
    /\ Transaction.is_day_trade x' = true
    /\ (Transaction.quantity x' == 0)%Q
    /\ Transaction.is_day_trade y' = true
    /\ (Transaction.quantity y' == 0)%Q
    /\ MonthState.holdings (process_day st (l1 ++ x :: l2 ++ y :: l3)) !! T
       = MonthState.holdings st !! T
    /\ normal_part (process_day st (l1 ++ x :: l2 ++ y :: l3))
       = normal_part (fold_left process_transaction (l1' ++ l2' ++ l3') st).
Proof.
  intros Hx Hy Hothers Htypes Hpos Hsame.
  destruct (process_day_trades_pair T l1 l2 l3 x y Hx Hy Hothers Htypes
              Hpos Hsame)
    as (l1' & l2' & l3' & x' & y' & E & H1 & H2 & H3
        & Htx & Hfx & Hqx & Hty & Hfy & Hqy).
  exists l1', l2', l3', x', y'.
  do 8 (split; [assumption|]).
  destruct (process_day_unfold st (l1 ++ x :: l2 ++ y :: l3))
    as (st0 & Hst0 & ->).
  rewrite E.
  apply Forall_app in Hothers as [Ho1 Ho23].
  apply Forall_app in Ho23 as [Ho2 Ho3].
  split.
  - rewrite fold_process_transaction_lots.
    + unfold normal_part in Hst0. now injection Hst0 as _ _ _ _ ->.
    + apply Forall_app. split;
        [now apply (same_identity_other_ticker T l1)|].
      constructor; [now right|].
      apply Forall_app. split;
        [now apply (same_identity_other_ticker T l2)|].
      constructor; [now right|].
      now apply (same_identity_other_ticker T l3).
  - repeat (rewrite !fold_left_app; cbn [fold_left]).
    apply fold_process_transaction_normal.
    rewrite (process_transaction_marked _ y' Hfy).
    apply fold_process_transaction_normal.
    rewrite (process_transaction_marked _ x' Hfx).
    apply fold_process_transaction_normal. exact Hst0.
Qed.

Lemma day_trade_pair_is_isolated_witness :
  MonthState.holdings
    (process_day state_with_lot
       [ buy_of "VALE" 100 10 5 (jan 5); buy_of "PBR" 10 5 5 (jan 5);
         sell_of "VALE" 100 11 5 (jan 5) ]) !! "VALE"
  = Some [Holding.Make 30 8 5 (jan 2) 0].
Proof.
  destruct (day_trade_pair_is_isolated "VALE" []
              [buy_of "PBR" 10 5 5 (jan 5)] []
              (buy_of "VALE" 100 10 5 (jan 5))
              (sell_of "VALE" 100 11 5 (jan 5)) state_with_lot)
    as (l1' & l2' & l3' & x' & y' & _ & _ & _ & _ & _ & _ & _ & _ & Hlots & _).
  - reflexivity.
  - reflexivity.
  - repeat constructor. discriminate.
  - left. split; reflexivity.
  - reflexivity.
  - reflexivity.
  - exact Hlots.
Defined.

(** C8 (as stated, refuted).  A buy of 100 shares and a sell of 100 shares
    of a ticker on one day are not always handled as a pair.  The matching
    takes each buy against the sells of the ticker in the order of the day:
    with a sell of 150 shares before them, the buy of 100 is matched in full
    against the sell of 150, and the sell of 100 is left unmarked with its
    100 shares.  Normal-trade processing then matches it first-in-first-out
    against the lot held before that date: the lot of 300 shares is reduced
    to 200 and the month's normal-trade gains are the R$1,500 of that
    sell. *)
Lemma day_trade_pair_among_other_sells_reaches_fifo :
  buy_of "VALE" 100 10 5 (jan 5) ∈ crowded_day
  /\ sell_of "VALE" 100 11 5 (jan 5) ∈ crowded_day
  /\ (process_day_trades crowded_day).1
     = [ Transaction.Make "VALE" "sell" 50 11 5 (jan 5) 0 true;
         Transaction.Make "VALE" "buy" 0 10 5 (jan 5) 0 true;
         sell_of "VALE" 100 11 5 (jan 5) ]
  /\ calculate_fifo_gain_loss (sell_of "VALE" 100 11 5 (jan 5))
       [Holding.Make 300 8 5 (jan 2) 0]
     = (1500%Q, [Holding.Make 200 8 5 (jan 2) 0])
  /\ (calculate_month_taxes crowded_day holdings_with_300 (2024, 1)%Z 0 0).2
       !! "VALE"
     = Some [Holding.Make 200 8 5 (jan 2) 0]
  /\ (calculate_month_taxes crowded_day holdings_with_300 (2024, 1)%Z 0 0).2
       !! "VALE"
     <> holdings_with_300 !! "VALE"
  /\ (MonthResult.gains
        (calculate_month_taxes crowded_day holdings_with_300 (2024, 1)%Z
           0 0).1 == 1500)%Q
  /\ ~ (MonthResult.gains
          (calculate_month_taxes crowded_day holdings_with_300 (2024, 1)%Z
             0 0).1 == 0)%Q.
Proof.
  assert (E : (calculate_month_taxes crowded_day holdings_with_300
                 (2024, 1)%Z 0 0).2 !! "VALE"
              = Some [Holding.Make 200 8 5 (jan 2) 0])
    by (vm_compute; reflexivity).
  split; [unfold crowded_day; set_solver|].
  split; [unfold crowded_day; set_solver|].
  split; [vm_compute; reflexivity|].
  split; [vm_compute; reflexivity|].
  split; [exact E|].
  split; [rewrite E; vm_compute; discriminate|].
  split; [vm_compute; reflexivity|].
  vm_compute. discriminate.
Qed.

(** ** Partially matched transactions *)

(** C4 (what the code does).  A transaction matched in part is marked as
    day trade like one matched in full, and a marked transaction is
    skipped by normal-trade processing whatever quantity it has left.
    With 100 bought and 40 sold on a day, the buy is left with 60 shares
    and no lot is created for them.  With a lot of 100 shares held, 40
    bought and 100 sold on a day, the sell's other 60 shares are not
    matched against the lot: the lot stays whole and the month has neither
    gain nor loss. *)
Theorem partial_match_remainders_are_dropped :
  (forall (st : MonthState.t) (t : Transaction.t),
      normal_part (process_transaction st (Transaction.set_is_day_trade t true))
      = normal_part st)
  /\ (process_day_trades partial_buy_day).1
     = [ Transaction.Make "VALE" "buy" 60 10 5 (jan 5) 0 true;
         Transaction.Make "VALE" "sell" 0 11 5 (jan 5) 0 true ]
  /\ (calculate_month_taxes partial_buy_day ∅ (2024, 1)%Z 0 0).2 !! "VALE"
     = None
  /\ (let r :=
        calculate_month_taxes
          (buy_of "VALE" 100 8 5 (jan 2) :: partial_day_trade_day)
          ∅ (2024, 1)%Z 0 0 in
      r.2 !! "VALE" = Some [Holding.Make 100 8 5 (jan 2) 0]
      /\ (MonthResult.gains r.1 == 0)%Q
      /\ (MonthResult.losses r.1 == 0)%Q).
Proof.
  split; [|split; [|split]].
  - intros st t. apply process_transaction_marked. reflexivity.
  - vm_compute. reflexivity.
  - vm_compute. reflexivity.
  - repeat split; vm_compute; reflexivity.
Qed.

(** ** Brokerage fees *)

Lemma fee_variant_fields (t t' : Transaction.t) :
  fee_variant t t' ->
  Transaction.ticker t' = Transaction.ticker t
  /\ Transaction.transaction_type t' = Transaction.transaction_type t
  /\ Transaction.quantity t' = Transaction.quantity t
  /\ Transaction.price_usd t' = Transaction.price_usd t
  /\ Transaction.exchange_rate t' = Transaction.exchange_rate t
  /\ Transaction.date t' = Transaction.date t
  /\ Transaction.is_day_trade t' = Transaction.is_day_trade t.
Proof. intros [fee ->]. destruct t. repeat split; reflexivity. Qed.

Lemma fee_variant_assign (t t' : Transaction.t) (q : Q) (b : bool) :
  fee_variant t t' ->
  fee_variant
    (Transaction.set_is_day_trade (Transaction.set_quantity t q) b)
    (Transaction.set_is_day_trade (Transaction.set_quantity t' q) b).
Proof. intros [fee ->]. exists fee. destruct t. reflexivity. Qed.

Lemma portion_gain_loss_fee (sell sell' : Transaction.t)
    (h h' : Holding.t) (q : Q) :
  fee_variant sell sell' -> lot_fee_variant h h' ->
  portion_gain_loss sell' h' q = portion_gain_loss sell h q.
Proof. intros [f ->] [f' ->]. destruct sell, h. reflexivity. Qed.

Lemma fifo_loop_fee (sell sell' : Transaction.t)
    (lots lots' : list Holding.t) :
  fee_variant sell sell' -> Forall2 lot_fee_variant lots lots' ->
  forall r g : Q,
    (fifo_loop sell' r g lots').1 = (fifo_loop sell r g lots).1
    /\ Forall2 lot_fee_variant (fifo_loop sell r g lots).2
         (fifo_loop sell' r g lots').2.
Proof.
  intros Hsell H. induction H as [|h h' lots lots' Hh Hlots IH]; intros r g.
  - simpl. split; [reflexivity|constructor].
  - simpl. rewrite (portion_gain_loss_fee sell sell' h h') by assumption.
    rewrite (portion_gain_loss_fee sell sell' h h') by assumption.
    assert (Hq : Holding.quantity h' = Holding.quantity h)
      by (destruct Hh as [f ->]; now destruct h).
    rewrite Hq. destruct (Qltb 0 r).
    + destruct (Qle_bool (Holding.quantity h) r).
      * apply IH.
      * simpl. split; [reflexivity|]. constructor; [|exact Hlots].
        destruct Hh as [f ->]. exists f. now destruct h.
    + simpl. split; [reflexivity|]. now constructor.
Qed.

Lemma Forall2_imap {A B C D : Type} (R : A -> B -> Prop)
    (R' : C -> D -> Prop) (l : list A) (l' : list B) :
  Forall2 R l l' ->
  forall (f : nat -> A -> C) (g : nat -> B -> D),
    (forall i a b, R a b -> R' (f i a) (g i b)) ->
    Forall2 R' (imap f l) (imap g l').
Proof.
  induction 1 as [|a b l l' Hab _ IH]; intros f g Hfg.
  - constructor.
  - rewrite !imap_cons. constructor; [now apply Hfg|].
    apply IH. intros i a' b' Hab'. now apply Hfg.
Qed.

(** Grouping two lists with the same keys and related values gives the
    same keys and related groups. *)
Section GroupingRelated.
Context {K A B : Type} `{EqDecision K}.
Variable R : A -> B -> Prop.

Lemma group_append_related (gs : list (K * list A))
    (gs' : list (K * list B)) (key : K) (a : A) (b : B) :
  groups_related R gs gs' -> R a b ->
  groups_related R (group_append gs key a) (group_append gs' key b).
Proof.
  intros H Hab. induction H as [|[k vs] [k' vs'] gs gs' [Hk Hvs] Hgs IH].
  - repeat constructor. exact Hab.
  - simpl in Hk. subst k'. cbn [group_append].
    destruct (decide (k = key)).
    + constructor; [|exact Hgs]. split; [reflexivity|].
      simpl. apply Forall2_app; [exact Hvs|]. now repeat constructor.
    + constructor; [|exact IH]. now split.
Qed.

Lemma group_by_related {X Y : Type} (key_of : X -> K) (key_of' : Y -> K)
    (value_of : X -> A) (value_of' : Y -> B) (l : list X) (l' : list Y) :
  Forall2 (fun x y => key_of x = key_of' y /\ R (value_of x) (value_of' y))
    l l' ->
  groups_related R (group_by key_of value_of l)
    (group_by key_of' value_of' l').
Proof.
  unfold group_by. intros H.
  assert (H0 : groups_related (K:=K) R [] []) by constructor.
  revert H0. generalize (@nil (K * list A)) (@nil (K * list B)).
  induction H as [|x y l l' [Hk Hv] _ IH]; intros gs gs' Hgs; simpl.
  - exact Hgs.
  - apply IH. rewrite Hk. now apply group_append_related.
Qed.
End GroupingRelated.

Lemma groups_related_eq {K A : Type} (gs gs' : list (K * list A)) :
  groups_related eq gs gs' -> gs = gs'.
Proof.
  induction 1 as [|[k vs] [k' vs'] gs gs' [Hk Hvs] _ IH]; [reflexivity|].
  simpl in Hk, Hvs. apply list_eq_Forall2 in Hvs. congruence.
Qed.

Lemma ticker_transactions_fee (day day' : list Transaction.t) :
  Forall2 fee_variant day day' ->
  ticker_transactions day' = ticker_transactions day.
Proof.
  intros H. symmetry. apply groups_related_eq.
  unfold ticker_transactions. apply group_by_related.
  apply (Forall2_imap fee_variant).
  - exact H.
  - intros i t t' Ht. simpl.
    apply fee_variant_fields in Ht as (-> & _). now split.
Qed.

Lemma match_pair_fee (acc acc' : list Transaction.t * DayTradeResult.t)
    (b s : nat) :
  matching_fee_variant acc acc' ->
  matching_fee_variant (match_pair acc b s) (match_pair acc' b s).
Proof.
  destruct acc as [store result], acc' as [store' result'].
  intros [Hst Hres]. simpl in Hst, Hres. subst result'.
  unfold match_pair.
  pose proof (proj1 (Forall2_lookup _ _ _) Hst b) as Hb.
  pose proof (proj1 (Forall2_lookup _ _ _) Hst s) as Hs.
  inversion Hb as [buy buy' Hbuy Eb Eb'|Eb Eb'];
    [|split; [exact Hst|reflexivity]].
  inversion Hs as [sell sell' Hsell Es Es'|Es Es'];
    [|split; [exact Hst|reflexivity]].
  destruct (fee_variant_fields _ _ Hbuy) as (_ & _ & -> & -> & -> & _).
  destruct (fee_variant_fields _ _ Hsell) as (_ & _ & -> & -> & -> & _).
  destruct (_ && _); [|split; [exact Hst|reflexivity]].
  destruct (Qltb 0 _); (split; [simpl|reflexivity]);
    (apply Forall2_insert; [apply Forall2_insert|]);
    auto using fee_variant_assign.
Qed.

Lemma has_type_fee (store store' : list Transaction.t) (type : string)
    (ref : nat) :
  Forall2 fee_variant store store' ->
  has_type store' type ref = has_type store type ref.
Proof.
  intros Hst. unfold has_type.
  pose proof (proj1 (Forall2_lookup _ _ _) Hst ref) as Hr.
  inversion Hr as [t t' Ht|]; [|reflexivity].
  now apply fee_variant_fields in Ht as (_ & -> & _).
Qed.

Lemma match_ticker_fee (acc acc' : list Transaction.t * DayTradeResult.t)
    (refs : list nat) :
  matching_fee_variant acc acc' ->
  matching_fee_variant (match_ticker acc refs) (match_ticker acc' refs).
Proof.
  intros H. unfold match_ticker.
  rewrite (filter_ext (has_type acc'.1 "buy") (has_type acc.1 "buy"))
    by (intros r; apply has_type_fee, H).
  rewrite (filter_ext (has_type acc'.1 "sell") (has_type acc.1 "sell"))
    by (intros r; apply has_type_fee, H).
  generalize (List.filter (has_type acc.1 "sell") refs) as sells.
  generalize (List.filter (has_type acc.1 "buy") refs) as buys.
  intros buys sells. revert acc acc' H.
  induction buys as [|b buys IHb]; intros acc acc' H; simpl; [exact H|].
  apply IHb. clear IHb. revert acc acc' H.
  induction sells as [|s sells IHs]; intros acc acc' H; simpl; [exact H|].
  apply IHs. now apply match_pair_fee.
Qed.

(** The day-trade gains and losses of a day do not depend on the fees. *)
Lemma process_day_trades_fee (day day' : list Transaction.t) :
  Forall2 fee_variant day day' ->
  matching_fee_variant (process_day_trades day) (process_day_trades day').
Proof.
  intros H. unfold process_day_trades.
  rewrite (ticker_transactions_fee day day' H).
  assert (H0 : matching_fee_variant (day, DayTradeResult.Make 0 0)
                 (day', DayTradeResult.Make 0 0)) by (split; [exact H|done]).
  revert H0.
  generalize (day, DayTradeResult.Make 0 0) (day', DayTradeResult.Make 0 0).
  induction (ticker_transactions day) as [|g groups IH];
    intros acc acc' Hacc; simpl; [exact Hacc|].
  apply IH. now apply match_ticker_fee.
Qed.

Lemma calculate_fifo_gain_loss_fee (sell sell' : Transaction.t)
    (lots lots' : list Holding.t) :
  fee_variant sell sell' -> Forall2 lot_fee_variant lots lots' ->
  (calculate_fifo_gain_loss sell' lots').1
  = (calculate_fifo_gain_loss sell lots).1
  /\ Forall2 lot_fee_variant (calculate_fifo_gain_loss sell lots).2
       (calculate_fifo_gain_loss sell' lots').2.
Proof.
  intros Hsell Hlots. unfold calculate_fifo_gain_loss.
  destruct (fee_variant_fields _ _ Hsell) as (_ & _ & -> & _).
  now apply fifo_loop_fee.
Qed.

Lemma holdings_fee_variant_refl (h : gmap string (list Holding.t)) :
  holdings_fee_variant h h.
Proof.
  intros k. induction (holdings_get h k) as [|lot lots IH]; constructor.
  - exists (Holding.brokerage_fee lot). now destruct lot.
  - exact IH.
Qed.

Lemma holdings_get_insert (h : gmap string (list Holding.t))
    (k k' : string) (lots : list Holding.t) :
  holdings_get (<[k:=lots]> h) k'
  = if decide (k = k') then lots else holdings_get h k'.
Proof.
  unfold holdings_get. rewrite lookup_insert.
  destruct (decide (k = k')); reflexivity.
Qed.

Lemma holdings_insert_fee (h h' : gmap string (list Holding.t))
    (k : string) (lots lots' : list Holding.t) :
  holdings_fee_variant h h' -> Forall2 lot_fee_variant lots lots' ->
  holdings_fee_variant (<[k:=lots]> h) (<[k:=lots']> h').
Proof.
  intros Hh Hlots k'. rewrite !holdings_get_insert.
  destruct (decide (k = k')); [exact Hlots|apply Hh].
Qed.

Lemma process_transaction_fee (st st' : MonthState.t)
    (t t' : Transaction.t) :
  state_fee_variant st st' -> fee_variant t t' ->
  state_fee_variant (process_transaction st t) (process_transaction st' t').
Proof.
  destruct st, st'. unfold state_fee_variant. simpl.
  intros (-> & -> & -> & -> & -> & -> & -> & Hh) Ht.
  pose proof (fee_variant_fields _ _ Ht)
    as (Etk & Ety & Eq & Ep & Er & Ed & Ef).
  unfold process_transaction. rewrite Etk, Ety, Ef.
  destruct (String.eqb (Transaction.transaction_type t) "sell").
  - destruct (negb (Transaction.is_day_trade t));
      [|simpl; repeat split; exact Hh].
    destruct (calculate_fifo_gain_loss_fee t t' _ _ Ht
                (Hh (Transaction.ticker t))) as [Eg Hlots].
    destruct (calculate_fifo_gain_loss t _) as [g lots].
    destruct (calculate_fifo_gain_loss t' _) as [g' lots'].
    simpl in Eg, Hlots. subst g'.
    destruct (Qltb 0 g); [destruct (Qltb 0 _)|]; simpl;
      repeat split; now apply holdings_insert_fee.
  - destruct (_ && _); simpl; repeat split; try exact Hh.
    apply holdings_insert_fee; [exact Hh|].
    apply Forall2_app; [apply Hh|].
    repeat constructor. rewrite Eq, Ep, Er, Ed.
    exists (Transaction.brokerage_fee t'). reflexivity.
Qed.

Lemma fold_process_transaction_fee (l l' : list Transaction.t) :
  Forall2 fee_variant l l' ->
  forall st st' : MonthState.t,
    state_fee_variant st st' ->
    state_fee_variant (fold_left process_transaction l st)
      (fold_left process_transaction l' st').
Proof.
  induction 1 as [|t t' l l' Ht _ IH]; intros st st' Hst; simpl.
  - exact Hst.
  - apply IH. now apply process_transaction_fee.
Qed.

Lemma process_day_fee (st st' : MonthState.t)
    (day day' : list Transaction.t) :
  state_fee_variant st st' -> Forall2 fee_variant day day' ->
  state_fee_variant (process_day st day) (process_day st' day').
Proof.
  intros Hst Hday. unfold process_day.
  destruct (process_day_trades_fee day day' Hday) as [Hstore Hres].
  destruct (process_day_trades day) as [store result].
  destruct (process_day_trades day') as [store' result'].
  simpl in Hstore, Hres. subst result'.
  destruct st, st'. unfold state_fee_variant in Hst. simpl in Hst.
  destruct Hst as (-> & -> & -> & -> & -> & -> & -> & Hh).
  destruct (_ && _);
    (apply fold_process_transaction_fee; [exact Hstore|]);
    repeat split; exact Hh.
Qed.

Lemma daily_transactions_fee (transactions transactions' : list Transaction.t) :
  Forall2 fee_variant transactions transactions' ->
  groups_related fee_variant (daily_transactions transactions)
    (daily_transactions transactions').
Proof.
  intros H. unfold daily_transactions. apply group_by_related.
  eapply Forall2_impl; [exact H|].
  intros t t' Ht. split; [|exact Ht].
  now apply fee_variant_fields in Ht as (_ & _ & _ & _ & _ & -> & _).
Qed.

Lemma month_result_fields (month : Z * Z) (st : MonthState.t) :
  MonthResult.gains (month_result month st) = MonthState.month_gains st
  /\ MonthResult.losses (month_result month st) = MonthState.month_losses st
  /\ MonthResult.net_gains (month_result month st)
     = (MonthState.month_gains st - MonthState.month_losses st)%Q
  /\ MonthResult.day_trade_gains (month_result month st)
     = MonthState.day_trade_gains st
  /\ MonthResult.day_trade_losses (month_result month st)
     = MonthState.day_trade_losses st.
Proof.
  unfold month_result. destruct (_ && _); repeat split; reflexivity.
Qed.

(** The month's gains, losses and day-trade figures do not depend on the
    brokerage fees of its transactions. *)
Lemma calculate_month_taxes_fee
    (transactions transactions' : list Transaction.t)
    (holdings : gmap string (list Holding.t)) (month : Z * Z)
    (compensable_losses day_trade_losses : Q) :
  Forall2 fee_variant transactions transactions' ->
  let r :=
    (calculate_month_taxes transactions holdings month compensable_losses
       day_trade_losses).1 in
  let r' :=
    (calculate_month_taxes transactions' holdings month compensable_losses
       day_trade_losses).1 in
  MonthResult.gains r' = MonthResult.gains r
  /\ MonthResult.losses r' = MonthResult.losses r
  /\ MonthResult.net_gains r' = MonthResult.net_gains r
  /\ MonthResult.day_trade_gains r' = MonthResult.day_trade_gains r
  /\ MonthResult.day_trade_losses r' = MonthResult.day_trade_losses r.
Proof.
  intros H. unfold calculate_month_taxes. cbn [fst].
  assert (Hst : state_fee_variant
                  (fold_left (fun st group => process_day st group.2)
                     (daily_transactions transactions)
                     (month_initial_state holdings compensable_losses
                        day_trade_losses))
                  (fold_left (fun st group => process_day st group.2)
                     (daily_transactions transactions')
                     (month_initial_state holdings compensable_losses
                        day_trade_losses))).
  { pose proof (daily_transactions_fee _ _ H) as Hdays.
    assert (H0 : state_fee_variant
                   (month_initial_state holdings compensable_losses
                      day_trade_losses)
                   (month_initial_state holdings compensable_losses
                      day_trade_losses)).
    { repeat split. apply holdings_fee_variant_refl. }
    revert H0.
    generalize (month_initial_state holdings compensable_losses
                  day_trade_losses) at 1 3.
    generalize (month_initial_state holdings compensable_losses
                  day_trade_losses).
    induction Hdays as [|g g' gs gs' [_ Hg] _ IH]; intros st' st Hst; simpl.
    - exact Hst.
    - apply IH. now apply process_day_fee. }
  destruct Hst as (Eg & El & Edg & Edl & _).
  destruct (month_result_fields month
              (fold_left (fun st group => process_day st group.2)
                 (daily_transactions transactions)
                 (month_initial_state holdings compensable_losses
                    day_trade_losses))) as (-> & -> & -> & -> & ->).
  destruct (month_result_fields month
              (fold_left (fun st group => process_day st group.2)
                 (daily_transactions transactions')
                 (month_initial_state holdings compensable_losses
                    day_trade_losses))) as (-> & -> & -> & -> & ->).
  rewrite Eg, El, Edg, Edl. repeat split; reflexivity.
Qed.

(** Every sell adds its value, fee included, to the IRRF base and to the
    month's sales volume. *)
Lemma process_transaction_sell_value (st : MonthState.t)
    (t : Transaction.t) :
  Transaction.transaction_type t = "sell" ->
  MonthState.irrf_paid (process_transaction st t)
  = (MonthState.irrf_paid st + Transaction.total_value_brl t * IRRF_RATE)%Q
  /\ MonthState.month_sales_total (process_transaction st t)
     = (MonthState.month_sales_total st + Transaction.total_value_brl t)%Q.
Proof.
  intros Hty. destruct st. unfold process_transaction. rewrite Hty. simpl.
  destruct (negb (Transaction.is_day_trade t)); [|split; reflexivity].
  destruct (calculate_fifo_gain_loss _ _) as [gain_loss lots].
  destruct (Qltb 0 gain_loss); [destruct (Qltb 0 _)|]; split; reflexivity.
Qed.

(** C10.  Take a list of transactions and the same list with any other
    brokerage fees, a sell and lots and the same with other fees.  The FIFO
    gain or loss of the sell, the day-trade gains and losses of the list
    taken as a day, and the gains, losses, net gains and day-trade gains and
    losses of the list taken as a month are the same with either fees.  The
    home-currency value of the sell is (quantity x price + fee) x exchange
    rate; every sell adds this value times the IRRF rate to the IRRF paid
    and this value to the month's sales volume, which the exemption
    compares with the threshold: a month with a gain of R$5,000 on sales of
    R$20,000 is exempt with no fee and taxable on the R$5,000 with a fee of
    $1 on the sell. *)
Theorem brokerage_fee_accounting
    (transactions transactions' : list Transaction.t)
    (holdings : gmap string (list Holding.t)) (month : Z * Z)
    (compensable_losses day_trade_losses : Q)
    (sell sell' : Transaction.t) (lots lots' : list Holding.t)
    (st : MonthState.t) :
  Forall2 fee_variant transactions transactions' ->
  fee_variant sell sell' ->
  Forall2 lot_fee_variant lots lots' ->
  Transaction.transaction_type sell = "sell" ->
  (calculate_fifo_gain_loss sell' lots').1
  = (calculate_fifo_gain_loss sell lots).1
  /\ (process_day_trades transactions').2 = (process_day_trades transactions).2
  /\ (let r :=
        (calculate_month_taxes transactions holdings month
           compensable_losses day_trade_losses).1 in
      let r' :=
        (calculate_month_taxes transactions' holdings month
           compensable_losses day_trade_losses).1 in
      MonthResult.gains r' = MonthResult.gains r
      /\ MonthResult.losses r' = MonthResult.losses r
      /\ MonthResult.net_gains r' = MonthResult.net_gains r
      /\ MonthResult.day_trade_gains r' = MonthResult.day_trade_gains r
      /\ MonthResult.day_trade_losses r' = MonthResult.day_trade_losses r)
  /\ (Transaction.total_value_brl sell
      == (Transaction.quantity sell * Transaction.price_usd sell
          + Transaction.brokerage_fee sell)
         * Transaction.exchange_rate sell)%Q
  /\ MonthState.irrf_paid (process_transaction st sell)
     = (MonthState.irrf_paid st
        + Transaction.total_value_brl sell * IRRF_RATE)%Q
  /\ MonthState.month_sales_total (process_transaction st sell)
     = (MonthState.month_sales_total st
        + Transaction.total_value_brl sell)%Q
  /\ (let r0 :=
        (calculate_month_taxes (threshold_month 0) ∅ (2024, 1)%Z 0 0).1 in
      let r1 :=
        (calculate_month_taxes (threshold_month 1) ∅ (2024, 1)%Z 0 0).1 in
      (MonthResult.gains r0 == 5000)%Q
      /\ (MonthResult.sales_total r0 == 20000)%Q
      /\ (MonthResult.taxable_gains r0 == 0)%Q
      /\ (MonthResult.gains r1 == 5000)%Q
      /\ (MonthResult.sales_total r1 == 20005)%Q
      /\ (MonthResult.taxable_gains r1 == 5000)%Q).
Proof.
  intros Htx Hsell Hlots Hty.
  split; [now apply calculate_fifo_gain_loss_fee|].
  split; [apply (process_day_trades_fee _ _ Htx)|].
  split; [now apply calculate_month_taxes_fee|].
  split; [reflexivity|].
  destruct (process_transaction_sell_value st sell Hty) as [Hirrf Hsales].
  split; [exact Hirrf|]. split; [exact Hsales|].
  repeat split; vm_compute; reflexivity.
Qed.

Lemma brokerage_fee_accounting_witness :
  (calculate_fifo_gain_loss
     (Transaction.Make "VALE" "sell" 1000 4 5 (jan 10) 1 false)
     [Holding.Make 1000 3 5 (jan 2) 7]).1
  = (calculate_fifo_gain_loss
       (Transaction.Make "VALE" "sell" 1000 4 5 (jan 10) 0 false)
       [Holding.Make 1000 3 5 (jan 2) 0]).1
  /\ MonthResult.gains
       (calculate_month_taxes (threshold_month 1) ∅ (2024, 1)%Z 0 0).1
     = MonthResult.gains
         (calculate_month_taxes (threshold_month 0) ∅ (2024, 1)%Z 0 0).1.
Proof.
  assert (H1 : Forall2 fee_variant (threshold_month 0) (threshold_month 1)).
  { repeat constructor; [exists 0%Q|exists 1%Q]; reflexivity. }
  assert (H2 : fee_variant
                 (Transaction.Make "VALE" "sell" 1000 4 5 (jan 10) 0 false)
                 (Transaction.Make "VALE" "sell" 1000 4 5 (jan 10) 1 false)).
  { exists 1%Q. reflexivity. }
  assert (H3 : Forall2 lot_fee_variant [Holding.Make 1000 3 5 (jan 2) 0]
                 [Holding.Make 1000 3 5 (jan 2) 7]).
  { repeat constructor. exists 7%Q. reflexivity. }
  destruct (brokerage_fee_accounting (threshold_month 0) (threshold_month 1)
              ∅ (2024, 1)%Z 0 0
              (Transaction.Make "VALE" "sell" 1000 4 5 (jan 10) 0 false)
              (Transaction.Make "VALE" "sell" 1000 4 5 (jan 10) 1 false)
              [Holding.Make 1000 3 5 (jan 2) 0]
              [Holding.Make 1000 3 5 (jan 2) 7]
              state_with_lot H1 H2 H3 eq_refl)
    as (Hfifo & _ & (Hgains & _) & _).
  split; [exact Hfifo|exact Hgains].
Defined.

(** * Further properties of the engine *)

(** ** What a sell takes from the lots *)






(** ** What the matching does to the transactions of a day *)

(** An invariant of the store and result that each match keeps is kept by
    the matching of a ticker, of all tickers, of the day. *)
Lemma match_groups_invariant
    (I : list Transaction.t * DayTradeResult.t -> Prop) :
  (forall acc b s, I acc -> I (match_pair acc b s)) ->
  forall (groups : list (string * list nat))
         (acc : list Transaction.t * DayTradeResult.t),
    I acc ->
    I (fold_left (fun acc group => match_ticker acc group.2) groups acc).
Proof.
  intros Hstep groups.
  induction groups as [|g groups IH]; intros acc Hacc; simpl; [exact Hacc|].
  apply IH. unfold match_ticker.
  generalize (List.filter (has_type acc.1 "sell") g.2) as sells.
  generalize (List.filter (has_type acc.1 "buy") g.2) as buys.
  intros buys sells. revert acc Hacc.
  induction buys as [|b buys IHb]; intros acc Hacc; simpl; [exact Hacc|].
  apply IHb. clear IHb. revert acc Hacc.
  induction sells as [|s sells IHs]; intros acc Hacc; simpl; [exact Hacc|].
  apply IHs. now apply Hstep.
Qed.

Lemma matched_or_untouched_refl (t : Transaction.t) :
  matched_or_untouched t t.
Proof. split; [apply same_identity_refl|now left]. Qed.

Lemma matched_or_untouched_le (t t' : Transaction.t) :
  matched_or_untouched t t' ->
  (Transaction.quantity t' <= Transaction.quantity t)%Q.
Proof.
  intros [_ [->|(_ & _ & Hlt)]]; [apply Qle_refl|now apply Qlt_le_weak].
Qed.

Lemma matched_or_untouched_match (t t' : Transaction.t) (m : Q) :
  matched_or_untouched t t' ->
  (0 < m)%Q -> (m <= Transaction.quantity t')%Q ->
  matched_or_untouched t
    (Transaction.set_is_day_trade
       (Transaction.set_quantity t' (Transaction.quantity t' - m)%Q) true).
Proof.
  intros H Hm Hle. pose proof (matched_or_untouched_le t t' H) as Hq.
  destruct H as [Hid _]. split; [now apply same_identity_assign|].
  right. destruct t'. simpl in *. repeat split; lra.
Qed.

Lemma match_pair_shrinks (day : list Transaction.t)
    (acc : list Transaction.t * DayTradeResult.t) (b s : nat) :
  Forall2 matched_or_untouched day acc.1 ->
  Forall2 matched_or_untouched day (match_pair acc b s).1.
Proof.
  destruct acc as [store result]. simpl. intros H. unfold match_pair.
  destruct (store !! b) as [buy|] eqn:Eb; [|exact H].
  destruct (store !! s) as [sell|] eqn:Es; [|exact H].
  destruct (Qltb 0 (Transaction.quantity buy)) eqn:Hb; [|exact H].
  destruct (Qltb 0 (Transaction.quantity sell)) eqn:Hs; [|exact H].
  apply Qltb_lt in Hb, Hs. cbn [andb].
  set (m := Qmin (Transaction.quantity buy) (Transaction.quantity sell)).
  assert (Hm : (0 < m)%Q /\ (m <= Transaction.quantity buy)%Q
               /\ (m <= Transaction.quantity sell)%Q).
  { unfold m.
    destruct (Q.min_spec (Transaction.quantity buy)
                (Transaction.quantity sell)) as [[? Hmin]|[? Hmin]];
      repeat split; lra. }
  destruct Hm as (Hm0 & Hmb & Hms).
  assert (H' : Forall2 matched_or_untouched day
                 (<[s:=Transaction.set_is_day_trade
                         (Transaction.set_quantity sell
                            (Transaction.quantity sell - m)%Q) true]>
                    (<[b:=Transaction.set_is_day_trade
                            (Transaction.set_quantity buy
                               (Transaction.quantity buy - m)%Q) true]>
                       store))).
  { destruct (decide (b = s)) as [->|Hne].
    - rewrite list_insert_insert_eq.
      eapply Forall2_insert_right; [exact H|exact Es|].
      intros x Hx. now apply matched_or_untouched_match.
    - eapply Forall2_insert_right.
      + eapply Forall2_insert_right; [exact H|exact Eb|].
        intros x Hx. now apply matched_or_untouched_match.
      + rewrite list_lookup_insert_ne by exact Hne. exact Es.
      + intros x Hx. now apply matched_or_untouched_match. }
  destruct (Qltb 0 _); exact H'.
Qed.

Lemma match_pair_result_nonneg
    (acc : list Transaction.t * DayTradeResult.t) (b s : nat) :
  (0 <= DayTradeResult.gains acc.2)%Q /\ (0 <= DayTradeResult.losses acc.2)%Q ->
  (0 <= DayTradeResult.gains (match_pair acc b s).2)%Q
  /\ (0 <= DayTradeResult.losses (match_pair acc b s).2)%Q.
Proof.
  destruct acc as [store result]. cbn [fst snd]. intros [Hg Hl].
  unfold match_pair.
  destruct (store !! b) as [buy|]; [|now split].
  destruct (store !! s) as [sell|]; [|now split].
  destruct (_ && _); [|now split].
  match goal with |- context [Qltb 0 ?x] => generalize x end.
  intros gain_loss. pose proof (Qabs_nonneg gain_loss) as Habs.
  destruct (Qltb 0 gain_loss) eqn:E;
    cbn [fst snd DayTradeResult.gains DayTradeResult.losses];
    [apply Qltb_lt in E|]; split; lra.
Qed.

(** X2.  [process_day_trades] leaves each transaction of the day as it
    was, or marked as day trade with a smaller quantity that is not
    negative; it changes nothing else of a transaction, and the day-trade
    gains and losses it returns are never negative. *)
Theorem process_day_trades_shrinks (day : list Transaction.t) :
  Forall2 matched_or_untouched day (process_day_trades day).1
  /\ (0 <= DayTradeResult.gains (process_day_trades day).2)%Q
  /\ (0 <= DayTradeResult.losses (process_day_trades day).2)%Q.
Proof.
  unfold process_day_trades. split.
  - apply (match_groups_invariant
             (fun acc => Forall2 matched_or_untouched day acc.1)).
    + intros acc b s. apply match_pair_shrinks.
    + simpl. induction day; constructor;
        auto using matched_or_untouched_refl.
  - apply (match_groups_invariant
             (fun acc => (0 <= DayTradeResult.gains acc.2)%Q
                         /\ (0 <= DayTradeResult.losses acc.2)%Q)).
    + intros acc b s. apply match_pair_result_nonneg.
    + simpl. split; apply Qle_refl.
Qed.

(** ** Invariants of the month *)

Ltac split_conj := repeat match goal with |- _ /\ _ => split end.

Ltac month_fields :=
  cbn [MonthState.month_gains MonthState.month_losses
       MonthState.month_sales_total MonthState.day_trade_gains
       MonthState.day_trade_losses MonthState.irrf_paid
       MonthState.compensable_losses MonthState.compensable_losses_used
       MonthState.day_trade_losses_used MonthState.holdings] in *.

Lemma process_day_trades_result_nonneg (day : list Transaction.t) :
  (0 <= DayTradeResult.gains (process_day_trades day).2)%Q
  /\ (0 <= DayTradeResult.losses (process_day_trades day).2)%Q.
Proof.
  unfold process_day_trades.
  apply (match_groups_invariant
           (fun acc => (0 <= DayTradeResult.gains acc.2)%Q
                       /\ (0 <= DayTradeResult.losses acc.2)%Q)).
  - intros acc b s. apply match_pair_result_nonneg.
  - simpl. split; apply Qle_refl.
Qed.

Lemma process_transaction_invariant (c0 : Q) (st : MonthState.t)
    (t : Transaction.t) :
  month_invariant c0 st -> month_invariant c0 (process_transaction st t).
Proof.
  destruct st as [mg ml ms dg dl irrf c cu du h].
  unfold month_invariant, process_transaction. month_fields.
  intros (Hmg & Hml & Hdg & Hdl & Hcu & Hdu & Hsum & Hc).
  destruct (String.eqb (Transaction.transaction_type t) "sell").
  - destruct (negb (Transaction.is_day_trade t));
      [|month_fields; split_conj; assumption].
    destruct (calculate_fifo_gain_loss _ _) as [g lots].
    pose proof (Qabs_nonneg g) as Habs.
    destruct (Qltb 0 g) eqn:Eg.
    + apply Qltb_lt in Eg. destruct (Qltb 0 c) eqn:Ec.
      * apply Qltb_lt in Ec. month_fields.
        destruct (Q.min_spec g c) as [[? Hmin]|[? Hmin]];
          split_conj; try (intros H0; specialize (Hc H0)); lra.
      * month_fields. split_conj; try assumption; lra.
    + month_fields. split_conj; try assumption; lra.
  - destruct (_ && _); month_fields; split_conj; assumption.
Qed.

Lemma fold_process_transaction_invariant (c0 : Q)
    (l : list Transaction.t) (st : MonthState.t) :
  month_invariant c0 st ->
  month_invariant c0 (fold_left process_transaction l st).
Proof.
  revert st. induction l as [|t l IH]; intros st Hst; simpl; [exact Hst|].
  apply IH. now apply process_transaction_invariant.
Qed.

Lemma process_day_invariant (c0 : Q) (st : MonthState.t)
    (day : list Transaction.t) :
  month_invariant c0 st -> month_invariant c0 (process_day st day).
Proof.
  intros Hst. unfold process_day.
  pose proof (process_day_trades_result_nonneg day) as [Hrg Hrl].
  destruct (process_day_trades day) as [day' [rg rl]].
  cbn [snd DayTradeResult.gains DayTradeResult.losses] in *.
  destruct st as [mg ml ms dg dl irrf c cu du h].
  unfold month_invariant in Hst. month_fields.
  destruct Hst as (Hmg & Hml & Hdg & Hdl & Hcu & Hdu & Hsum & Hc).
  destruct (Qltb 0 rg) eqn:E1; [destruct (Qltb 0 dl) eqn:E2|];
    cbn [andb]; apply fold_process_transaction_invariant;
    unfold month_invariant; month_fields.
  - apply Qltb_lt in E1, E2.
    destruct (Q.min_spec rg dl) as [[? Hmin]|[? Hmin]];
      split_conj; try assumption; lra.
  - split_conj; try assumption; lra.
  - split_conj; try assumption; lra.
Qed.

Lemma month_final_invariant (transactions : list Transaction.t)
    (holdings : gmap string (list Holding.t))
    (compensable_losses day_trade_losses : Q) :
  month_invariant compensable_losses
    (fold_left (fun st group => process_day st group.2)
       (daily_transactions transactions)
       (month_initial_state holdings compensable_losses day_trade_losses)).
Proof.
  assert (H0 : month_invariant compensable_losses
                 (month_initial_state holdings compensable_losses
                    day_trade_losses)).
  { unfold month_invariant, month_initial_state. month_fields.
    split_conj; try apply Qle_refl; try (intros H; exact H). ring. }
  revert H0.
  generalize (month_initial_state holdings compensable_losses
                day_trade_losses) as st.
  induction (daily_transactions transactions) as [|g groups IH];
    intros st Hst; simpl; [exact Hst|].
  apply IH. now apply process_day_invariant.
Qed.

Lemma month_result_taxable (month : Z * Z) (st : MonthState.t) :
  let r := month_result month st in
  (0 <= MonthResult.taxable_gains r)%Q
  /\ (0 <= MonthResult.exempted_gains r)%Q
  /\ (MonthResult.taxable_gains r + MonthResult.exempted_gains r
      == Qmax (MonthResult.net_gains r) 0)%Q
  /\ ((MonthResult.taxable_gains r == 0)%Q
      \/ (MonthResult.exempted_gains r == 0)%Q).
Proof.
  unfold month_result.
  set (net := (MonthState.month_gains st - MonthState.month_losses st)%Q).
  destruct (Q.max_spec net 0) as [[? Hmax]|[? Hmax]];
    destruct (Qltb 0 net) eqn:E1;
    destruct (Qle_bool (MonthState.month_sales_total st)
                SWING_TRADE_EXEMPTION);
    try apply Qltb_lt in E1; try apply Qltb_ge in E1;
    cbn [andb MonthResult.taxable_gains MonthResult.exempted_gains
         MonthResult.net_gains];
    split_conj; try (left; reflexivity); try (right; reflexivity); lra.
Qed.

Lemma month_result_carry (month : Z * Z) (st : MonthState.t) :
  MonthResult.remaining_compensable_losses (month_result month st)
  = MonthState.compensable_losses st
  /\ MonthResult.compensable_losses_used (month_result month st)
     = MonthState.compensable_losses_used st.
Proof. unfold month_result. destruct (_ && _); split; reflexivity. Qed.

(** X3.  Whatever the transactions, the lots and the balances given to it,
    the dictionary of [calculate_month_taxes] has no negative gains, losses,
    day-trade gains, day-trade losses, taxable gains or exempted gains; its
    net gains are gains less losses; and a positive net gain is either
    exempted in full or taxable in full: taxable and exempted gains add up
    to max(net gains, 0) and one of the two is zero. *)
Theorem month_figures_nonnegative (transactions : list Transaction.t)
    (holdings : gmap string (list Holding.t)) (month : Z * Z)
    (compensable_losses day_trade_losses : Q) :
  let r :=
    (calculate_month_taxes transactions holdings month compensable_losses
       day_trade_losses).1 in
  (0 <= MonthResult.gains r)%Q
  /\ (0 <= MonthResult.losses r)%Q
  /\ (0 <= MonthResult.day_trade_gains r)%Q
  /\ (0 <= MonthResult.day_trade_losses r)%Q
  /\ (0 <= MonthResult.taxable_gains r)%Q
  /\ (0 <= MonthResult.exempted_gains r)%Q
  /\ MonthResult.net_gains r = (MonthResult.gains r - MonthResult.losses r)%Q
  /\ (MonthResult.taxable_gains r + MonthResult.exempted_gains r
      == Qmax (MonthResult.net_gains r) 0)%Q
  /\ ((MonthResult.taxable_gains r == 0)%Q
      \/ (MonthResult.exempted_gains r == 0)%Q).
Proof.
  intros r. subst r. unfold calculate_month_taxes. cbn [fst].
  pose proof (month_final_invariant transactions holdings compensable_losses
                day_trade_losses) as Hinv.
  set (st := fold_left _ _ _) in *.
  destruct Hinv as (Hmg & Hml & Hdg & Hdl & _).
  destruct (month_result_fields month st) as (-> & -> & -> & -> & ->).
  destruct (month_result_taxable month st) as (Ht & He & Hsum & Hone).
  destruct (month_result_fields month st) as (_ & _ & Enet & _).
  rewrite Enet in Hsum.
  split_conj; try assumption. reflexivity.
Qed.

(** X4.  With a balance of compensable losses that is not negative,
    [calculate_month_taxes] hands on a balance that is not negative and
    reports a use that is not negative, and the two add up to the balance
    it was given: losses are neither created nor lost, and no more is used
    than there was. *)
Theorem month_compensable_losses_conserved
    (transactions : list Transaction.t)
    (holdings : gmap string (list Holding.t)) (month : Z * Z)
    (compensable_losses day_trade_losses : Q) :
  (0 <= compensable_losses)%Q ->
  let r :=
    (calculate_month_taxes transactions holdings month compensable_losses
       day_trade_losses).1 in
  (MonthResult.remaining_compensable_losses r
   + MonthResult.compensable_losses_used r == compensable_losses)%Q
  /\ (0 <= MonthResult.remaining_compensable_losses r)%Q
  /\ (0 <= MonthResult.compensable_losses_used r)%Q.
Proof.
  intros Hc r. subst r. unfold calculate_month_taxes. cbn [fst].
  pose proof (month_final_invariant transactions holdings compensable_losses
                day_trade_losses) as Hinv.
  set (st := fold_left _ _ _) in *.
  destruct Hinv as (_ & _ & _ & _ & Hcu & _ & Hsum & Hrem).
  destruct (month_result_carry month st) as [-> ->].
  split_conj; [exact Hsum|now apply Hrem|exact Hcu].
Qed.

Lemma month_compensable_losses_conserved_witness :
  let r := (calculate_month_taxes gain_1500_month ∅ (2024, 1)%Z 1000 0).1 in
  (MonthResult.remaining_compensable_losses r
   + MonthResult.compensable_losses_used r == 1000)%Q
  /\ (0 <= MonthResult.remaining_compensable_losses r)%Q
  /\ (0 <= MonthResult.compensable_losses_used r)%Q.
Proof.
  apply (month_compensable_losses_conserved gain_1500_month ∅ (2024, 1)%Z
           1000 0).
  discriminate.
Defined.

(** ** Invariants of the year *)

Lemma process_month_invariant (c0 : Q) (ys : YearState.t)
    (group : Z * Z * list Transaction.t) :
  year_invariant c0 ys -> year_invariant c0 (process_month ys group).
Proof.
  destruct group as [month transactions].
  destruct ys as [[] holdings rc rd]. unfold year_invariant, process_month.
  cbn [YearState.summary YearState.remaining_compensable_losses
       YearlySummary.total_gains YearlySummary.total_losses
       YearlySummary.day_trade_gains YearlySummary.day_trade_losses
       YearlySummary.previous_year_losses_used
       YearlySummary.compensable_losses
       YearlySummary.day_trade_compensable_losses].
  intros (Htg & Htl & Hdg & Hdl & Hused & Hsum & Hrem & Hcl & Hdcl).
  pose proof (month_final_invariant transactions holdings rc rd) as Hinv.
  unfold calculate_month_taxes.
  set (st := fold_left _ _ _) in *.
  destruct Hinv as (Hmg & Hml & Hmdg & Hmdl & Hcu & _ & Hmsum & Hmrem).
  cbn [YearState.summary YearState.remaining_compensable_losses
       YearlySummary.total_gains YearlySummary.total_losses
       YearlySummary.day_trade_gains YearlySummary.day_trade_losses
       YearlySummary.previous_year_losses_used
       YearlySummary.compensable_losses
       YearlySummary.day_trade_compensable_losses].
  destruct (month_result_fields month st) as (-> & -> & _ & -> & ->).
  destruct (month_result_carry month st) as [-> ->].
  split_conj; try assumption; lra.
Qed.

Lemma monthly_totals_invariant (self : TaxCalculator.t) :
  exists ys : YearState.t,
    monthly_totals self = YearState.summary ys
    /\ year_invariant (TaxCalculator.compensable_losses self) ys.
Proof.
  unfold monthly_totals.
  set (ys0 := YearState.Make _ _ _ _).
  assert (H0 : year_invariant (TaxCalculator.compensable_losses self) ys0).
  { unfold year_invariant, ys0.
    cbn [YearState.summary YearState.remaining_compensable_losses
         YearlySummary.total_gains YearlySummary.total_losses
         YearlySummary.day_trade_gains YearlySummary.day_trade_losses
         YearlySummary.previous_year_losses_used
         YearlySummary.compensable_losses
         YearlySummary.day_trade_compensable_losses].
    split_conj; try apply Qle_refl; try reflexivity; try (intros H; exact H).
    ring. }
  clearbody ys0. revert ys0 H0.
  induction (group_transactions_by_month (TaxCalculator.transactions self))
    as [|g groups IH]; intros ys0 H0; simpl.
  - now exists ys0.
  - apply IH. now apply process_month_invariant.
Qed.

Lemma finish_summary_carry (s : YearlySummary.t) :
  YearlySummary.previous_year_losses_used (finish_summary s)
  = YearlySummary.previous_year_losses_used s.
Proof. destruct s. reflexivity. Qed.

Lemma finish_summary_next_year (s : YearlySummary.t) :
  YearlySummary.compensable_losses s = 0%Q ->
  YearlySummary.day_trade_compensable_losses s = 0%Q ->
  (YearlySummary.compensable_losses (finish_summary s)
   == Qmax (YearlySummary.total_losses s - YearlySummary.total_gains s) 0)%Q
  /\ (YearlySummary.day_trade_compensable_losses (finish_summary s)
      == Qmax (YearlySummary.day_trade_losses s
               - YearlySummary.day_trade_gains s) 0)%Q.
Proof.
  destruct s as [y tg tl ng tax irrf dg dl dtax mb cl dcl pl pdl eg es].
  cbn [YearlySummary.compensable_losses
       YearlySummary.day_trade_compensable_losses
       YearlySummary.total_gains YearlySummary.total_losses
       YearlySummary.day_trade_gains YearlySummary.day_trade_losses
       finish_summary].
  intros -> ->. split.
  - destruct (Q.max_spec (tl - tg) 0) as [[? Hmax]|[? Hmax]];
      destruct (Qltb (tg - tl) 0) eqn:E;
      try apply Qltb_lt in E; try apply Qltb_ge in E; rewrite Hmax;
      try (rewrite Qabs_neg by lra); lra.
  - destruct (Q.max_spec (dl - dg) 0) as [[? Hmax]|[? Hmax]];
      destruct (Qltb (dg - dl) 0) eqn:E;
      try apply Qltb_lt in E; try apply Qltb_ge in E; rewrite Hmax;
      try (rewrite Qabs_neg by lra); lra.
Qed.

(** X5.  In the yearly summary the totals of gains, losses, day-trade
    gains and day-trade losses are never negative, and the losses handed to
    next year are max(total losses - total gains, 0) for normal trades and
    max(day-trade losses - day-trade gains, 0) for day trades: never
    negative, and zero as soon as the year ends with a net gain. *)
Theorem next_year_losses_formula (self : TaxCalculator.t) :
  let s := calculate_taxes self in
  (0 <= YearlySummary.total_gains s)%Q
  /\ (0 <= YearlySummary.total_losses s)%Q
  /\ (0 <= YearlySummary.day_trade_gains s)%Q
  /\ (0 <= YearlySummary.day_trade_losses s)%Q
  /\ (YearlySummary.compensable_losses s
      == Qmax (YearlySummary.total_losses s - YearlySummary.total_gains s) 0)%Q
  /\ (YearlySummary.day_trade_compensable_losses s
      == Qmax (YearlySummary.day_trade_losses s
               - YearlySummary.day_trade_gains s) 0)%Q
  /\ (0 <= YearlySummary.compensable_losses s)%Q
  /\ (0 <= YearlySummary.day_trade_compensable_losses s)%Q.
Proof.
  intros s. subst s. unfold calculate_taxes.
  destruct (monthly_totals_invariant self) as (ys & -> & Hinv).
  destruct Hinv as (Htg & Htl & Hdg & Hdl & _ & _ & _ & Hcl & Hdcl).
  destruct (finish_summary_next_year _ Hcl Hdcl) as [H1 H2].
  destruct (finish_summary_totals (YearState.summary ys))
    as (-> & -> & -> & -> & _).
  split_conj; try assumption.
  - rewrite H1. apply Q.le_max_r.
  - rewrite H2. apply Q.le_max_r.
Qed.

(** X6.  With a balance of compensable losses carried into the year that
    is not negative, the losses of previous years the summary reports as
    used are not negative and never exceed that balance. *)
Theorem previous_year_losses_used_bounded (self : TaxCalculator.t) :
  (0 <= TaxCalculator.compensable_losses self)%Q ->
  (0 <= YearlySummary.previous_year_losses_used (calculate_taxes self))%Q
  /\ (YearlySummary.previous_year_losses_used (calculate_taxes self)
      <= TaxCalculator.compensable_losses self)%Q.
Proof.
  intros Hc. unfold calculate_taxes. rewrite finish_summary_carry.
  destruct (monthly_totals_invariant self) as (ys & -> & Hinv).
  destruct Hinv as (_ & _ & _ & _ & Hused & Hsum & Hrem & _).
  specialize (Hrem Hc). split; [exact Hused|lra].
Qed.

Lemma previous_year_losses_used_bounded_witness :
  (0 <= YearlySummary.previous_year_losses_used
          (calculate_taxes (TaxCalculator.Make 2024 gain_1500_month 1000 0)))%Q
  /\ (YearlySummary.previous_year_losses_used
        (calculate_taxes (TaxCalculator.Make 2024 gain_1500_month 1000 0))
      <= 1000)%Q.
Proof.
  apply (previous_year_losses_used_bounded
           (TaxCalculator.Make 2024 gain_1500_month 1000 0)).
  discriminate.
Defined.

(** ** Days without a buy and a sell of the same ticker *)

Lemma has_type_elem (store : list Transaction.t) (type : string)
    (refs : list nat) (r : nat) :
  r ∈ List.filter (has_type store type) refs ->
  r ∈ refs
  /\ exists t, store !! r = Some t /\ Transaction.transaction_type t = type.
Proof.
  intros Hin. apply list_elem_of_In, filter_In in Hin as [Hin Hty].
  split; [now apply list_elem_of_In|].
  unfold has_type in Hty. destruct (store !! r) as [t|]; [|discriminate].
  exists t. split; [reflexivity|]. now apply String.eqb_eq.
Qed.

Lemma match_ticker_one_side (acc : list Transaction.t * DayTradeResult.t)
    (refs : list nat) :
  List.filter (has_type acc.1 "buy") refs = []
  \/ List.filter (has_type acc.1 "sell") refs = [] ->
  match_ticker acc refs = acc.
Proof.
  unfold match_ticker. intros [-> | ->]; [reflexivity|].
  induction (List.filter (has_type acc.1 "buy") refs) as [|b buys IH];
    [reflexivity|exact IH].
Qed.

Lemma process_day_trades_one_side (day : list Transaction.t) :
  (forall b s : Transaction.t,
      b ∈ day -> s ∈ day ->
      Transaction.transaction_type b = "buy" ->
      Transaction.transaction_type s = "sell" ->
      Transaction.ticker b <> Transaction.ticker s) ->
  process_day_trades day = (day, DayTradeResult.Make 0 0).
Proof.
  intros Hside. unfold process_day_trades.
  assert (Hgroups : forall g, g ∈ ticker_transactions day ->
                      g ∈ ticker_transactions day) by auto.
  revert Hgroups.
  generalize (ticker_transactions day) at 1 3.
  intros groups Hgroups.
  induction groups as [|[k refs] groups IH]; [reflexivity|].
  simpl. rewrite match_ticker_one_side.
  - apply IH. intros g Hg. apply Hgroups. now constructor.
  - simpl.
    destruct (List.filter (has_type day "buy") refs) as [|b bs] eqn:Eb;
      [now left|].
    destruct (List.filter (has_type day "sell") refs) as [|s ss] eqn:Es;
      [now right|].
    exfalso.
    assert (Hrefs : refs = refs_from 0 k day).
    { apply ticker_group_refs, Hgroups. constructor. }
    assert (Hb : b ∈ List.filter (has_type day "buy") refs)
      by (rewrite Eb; constructor).
    assert (Hs : s ∈ List.filter (has_type day "sell") refs)
      by (rewrite Es; constructor).
    apply has_type_elem in Hb as (Hbr & tb & Hlb & Htb).
    apply has_type_elem in Hs as (Hsr & ts & Hls & Hts).
    rewrite Hrefs in Hbr, Hsr.
    apply refs_from_elem in Hbr as (tb' & Hlb' & Hkb & _).
    apply refs_from_elem in Hsr as (ts' & Hls' & Hks & _).
    rewrite Nat.sub_0_r in Hlb', Hls'.
    rewrite Hlb in Hlb'. injection Hlb' as <-.
    rewrite Hls in Hls'. injection Hls' as <-.
    apply (Hside tb ts); try assumption.
    + apply list_elem_of_lookup. now exists b.
    + apply list_elem_of_lookup. now exists s.
    + congruence.
Qed.

(** X7.  On a day on which no ticker has both a buy and a sell,
    [process_day_trades] matches nothing: every transaction keeps its
    quantity and its mark, and the day-trade gains and losses are zero. *)
Theorem no_day_trade_without_both_sides (day : list Transaction.t) :
  (forall b s : Transaction.t,
      b ∈ day -> s ∈ day ->
      Transaction.transaction_type b = "buy" ->
      Transaction.transaction_type s = "sell" ->
      Transaction.ticker b <> Transaction.ticker s) ->
  process_day_trades day = (day, DayTradeResult.Make 0 0).
Proof. apply process_day_trades_one_side. Qed.

Lemma no_day_trade_without_both_sides_witness :
  process_day_trades two_tickers_day
  = (two_tickers_day, DayTradeResult.Make 0 0).
Proof.
  apply (no_day_trade_without_both_sides two_tickers_day).
  intros b s Hb Hs Htb Hts.
  unfold two_tickers_day in Hb, Hs.
  apply elem_of_cons in Hb as [->|Hb];
    [|apply list_elem_of_singleton in Hb; subst b; discriminate].
  apply elem_of_cons in Hs as [->|Hs]; [discriminate|].
  apply list_elem_of_singleton in Hs. subst s. discriminate.
Defined.

(** ** A year without a buy *)

Lemma process_transaction_nothing_realized (st : MonthState.t)
    (t : Transaction.t) :
  Transaction.transaction_type t <> "buy" ->
  nothing_realized st -> nothing_realized (process_transaction st t).
Proof.
  intros Hty. destruct st as [mg ml ms dg dl irrf c cu du h].
  unfold nothing_realized, process_transaction. month_fields.
  intros (Hmg & Hml & Hdg & Hdl & Hh).
  destruct (String.eqb (Transaction.transaction_type t) "sell").
  - destruct (negb (Transaction.is_day_trade t));
      [|month_fields; split_conj; assumption].
    rewrite Hh. cbn [calculate_fifo_gain_loss fifo_loop].
    change (Qltb 0 0) with false. cbv iota. month_fields.
    split_conj; try assumption.
    + rewrite Hml. reflexivity.
    + intros k. rewrite holdings_get_insert. case_decide; [reflexivity|].
      apply Hh.
  - replace (String.eqb (Transaction.transaction_type t) "buy") with false
      by (symmetry; now apply String.eqb_neq).
    cbn [andb]. month_fields. split_conj; assumption.
Qed.

Lemma process_day_nothing_realized (st : MonthState.t)
    (day : list Transaction.t) :
  Forall (fun t => Transaction.transaction_type t <> "buy") day ->
  nothing_realized st -> nothing_realized (process_day st day).
Proof.
  intros Hday Hst. unfold process_day.
  rewrite process_day_trades_one_side.
  - destruct st as [mg ml ms dg dl irrf c cu du h].
    cbn [DayTradeResult.gains DayTradeResult.losses].
    change (Qltb 0 0) with false. cbn [andb].
    assert (H0 : nothing_realized
                   (MonthState.Make mg ml ms (dg + 0)%Q (dl + 0)%Q irrf c cu
                      du h)).
    { unfold nothing_realized in *. month_fields.
      destruct Hst as (Hmg & Hml & Hdg & Hdl & Hh).
      split_conj; try assumption; lra. }
    revert H0. generalize (MonthState.Make mg ml ms (dg + 0)%Q (dl + 0)%Q
                             irrf c cu du h).
    induction Hday as [|t day Ht _ IH]; intros st0 H0; simpl; [exact H0|].
    apply IH. now apply process_transaction_nothing_realized.
  - intros b s Hb _ Htb _ _.
    apply (proj1 (Forall_forall _ _) Hday b); [exact Hb|exact Htb].
Qed.

Lemma group_by_Forall {K A : Type} `{EqDecision K} (P : A -> Prop)
    (key_of : A -> K) (l : list A) (g : K * list A) :
  Forall P l -> g ∈ group_by key_of (fun a => a) l -> Forall P g.2.
Proof.
  intros Hl Hg. destruct g as [k vs].
  apply group_by_elem in Hg. subst vs. simpl.
  apply Forall_fmap, Forall_forall. intros a Ha.
  apply list_elem_of_In, filter_In in Ha as [Ha _].
  apply (proj1 (Forall_forall _ _) Hl a). now apply list_elem_of_In.
Qed.

Lemma calculate_month_taxes_nothing_realized
    (transactions : list Transaction.t)
    (holdings : gmap string (list Holding.t)) (month : Z * Z)
    (compensable_losses day_trade_losses : Q) :
  Forall (fun t => Transaction.transaction_type t <> "buy") transactions ->
  (forall k : string, holdings_get holdings k = []) ->
  let r :=
    calculate_month_taxes transactions holdings month compensable_losses
      day_trade_losses in
  (MonthResult.gains r.1 == 0)%Q
  /\ (MonthResult.losses r.1 == 0)%Q
  /\ (MonthResult.day_trade_gains r.1 == 0)%Q
  /\ (MonthResult.day_trade_losses r.1 == 0)%Q
  /\ forall k : string, holdings_get r.2 k = [].
Proof.
  intros Htx Hh r. subst r. unfold calculate_month_taxes. cbn [fst snd].
  assert (Hst : nothing_realized
                  (fold_left (fun st group => process_day st group.2)
                     (daily_transactions transactions)
                     (month_initial_state holdings compensable_losses
                        day_trade_losses))).
  { assert (H0 : nothing_realized
                   (month_initial_state holdings compensable_losses
                      day_trade_losses)).
    { unfold nothing_realized, month_initial_state. month_fields.
      split_conj; try reflexivity. exact Hh. }
    assert (Hdays : Forall
                      (fun g : Transaction.date_t * list Transaction.t =>
                         Forall (fun t => Transaction.transaction_type t
                                          <> "buy") g.2)
                      (daily_transactions transactions)).
    { apply Forall_forall. intros g Hg.
      now apply (group_by_Forall _ Transaction.date transactions). }
    revert H0.
    generalize (month_initial_state holdings compensable_losses
                  day_trade_losses).
    induction Hdays as [|g groups Hg _ IH]; intros st Hst; simpl;
      [exact Hst|].
    apply IH. now apply process_day_nothing_realized. }
  set (st := fold_left _ _ _) in *.
  destruct Hst as (Hmg & Hml & Hdg & Hdl & Hh').
  destruct (month_result_fields month st) as (-> & -> & _ & -> & ->).
  split_conj; assumption.
Qed.

Lemma process_month_nothing_realized (ys : YearState.t)
    (group : Z * Z * list Transaction.t) :
  Forall (fun t => Transaction.transaction_type t <> "buy") group.2 ->
  nothing_realized_in_year ys ->
  nothing_realized_in_year (process_month ys group).
Proof.
  destruct group as [month transactions]. cbn [snd]. intros Htx.
  destruct ys as [[] holdings rc rd].
  unfold nothing_realized_in_year, process_month.
  cbn [YearState.summary YearState.holdings
       YearlySummary.total_gains YearlySummary.total_losses
       YearlySummary.day_trade_gains YearlySummary.day_trade_losses].
  intros (Htg & Htl & Hdg & Hdl & Hh).
  pose proof (calculate_month_taxes_nothing_realized transactions holdings
                month rc rd Htx Hh) as Hm.
  destruct (calculate_month_taxes transactions holdings month rc rd)
    as [r holdings'].
  cbn [fst snd] in Hm. destruct Hm as (Hg & Hl & Hmdg & Hmdl & Hh').
  cbn [YearState.summary YearState.holdings
       YearlySummary.total_gains YearlySummary.total_losses
       YearlySummary.day_trade_gains YearlySummary.day_trade_losses].
  split_conj; try assumption; lra.
Qed.

(** X8.  [calculate_taxes] starts every year with no lot at all: in a year
    whose transactions include no buy, every sell finds its ticker without
    lots, so the year's gains, losses, day-trade gains and day-trade losses
    are all zero, whatever the sells are and whatever was bought in earlier
    years. *)
Theorem year_without_buy_realizes_nothing (self : TaxCalculator.t) :
  Forall (fun t => Transaction.transaction_type t <> "buy")
    (TaxCalculator.transactions self) ->
  (YearlySummary.total_gains (calculate_taxes self) == 0)%Q
  /\ (YearlySummary.total_losses (calculate_taxes self) == 0)%Q
  /\ (YearlySummary.day_trade_gains (calculate_taxes self) == 0)%Q
  /\ (YearlySummary.day_trade_losses (calculate_taxes self) == 0)%Q.
Proof.
  intros Htx. unfold calculate_taxes.
  destruct (finish_summary_totals (monthly_totals self))
    as (-> & -> & -> & -> & _).
  unfold monthly_totals.
  set (ys0 := YearState.Make _ _ _ _).
  assert (H0 : nothing_realized_in_year ys0).
  { unfold nothing_realized_in_year, ys0.
    cbn [YearState.summary YearState.holdings
         YearlySummary.total_gains YearlySummary.total_losses
         YearlySummary.day_trade_gains YearlySummary.day_trade_losses].
    split_conj; reflexivity. }
  assert (Hmonths : Forall
                      (fun g : Z * Z * list Transaction.t =>
                         Forall (fun t => Transaction.transaction_type t
                                          <> "buy") g.2)
                      (group_transactions_by_month
                         (TaxCalculator.transactions self))).
  { apply Forall_forall. intros g Hg.
    eapply group_by_Forall; [exact Htx|exact Hg]. }
  clearbody ys0. revert ys0 H0.
  induction Hmonths as [|g groups Hg _ IH]; intros ys0 H0; simpl.
  - destruct H0 as (H1 & H2 & H3 & H4 & _). now split_conj.
  - apply IH. now apply process_month_nothing_realized.
Qed.

Lemma year_without_buy_realizes_nothing_witness :
  (YearlySummary.total_gains
     (calculate_taxes (TaxCalculator.Make 2024 only_sell_year 0 0)) == 0)%Q
  /\ (YearlySummary.total_losses
        (calculate_taxes (TaxCalculator.Make 2024 only_sell_year 0 0))
      == 0)%Q.
Proof.
  destruct (year_without_buy_realizes_nothing
              (TaxCalculator.Make 2024 only_sell_year 0 0))
    as (H1 & H2 & _).
  - repeat constructor. discriminate.
  - split; assumption.
Defined.

(** ** The matching is exhaustive *)

Lemma match_pair_length (acc : list Transaction.t * DayTradeResult.t)
    (b s : nat) :
  length (match_pair acc b s).1 = length acc.1.
Proof.
  destruct acc as [store result]. unfold match_pair.
  destruct (store !! b); [|reflexivity].
  destruct (store !! s); [|reflexivity].
  destruct (_ && _); [|reflexivity].
  destruct (Qltb 0 _); cbn [fst]; now rewrite !length_insert.
Qed.

(** A transaction with no positive quantity is never touched again. *)
Lemma match_pair_frozen (acc : list Transaction.t * DayTradeResult.t)
    (b s p : nat) (t : Transaction.t) :
  acc.1 !! p = Some t -> ~ (0 < Transaction.quantity t)%Q ->
  (match_pair acc b s).1 !! p = Some t.
Proof.
  destruct acc as [store result]. cbn [fst]. intros Hp Hq.
  unfold match_pair.
  destruct (store !! b) as [buy|] eqn:Eb; [|exact Hp].
  destruct (store !! s) as [sell|] eqn:Es; [|exact Hp].
  destruct (Qltb 0 (Transaction.quantity buy)) eqn:Hb; [|exact Hp].
  destruct (Qltb 0 (Transaction.quantity sell)) eqn:Hs; [|exact Hp].
  apply Qltb_lt in Hb, Hs. cbn [andb].
  assert (Hpb : p <> b) by (intros ->; congruence).
  assert (Hps : p <> s) by (intros ->; congruence).
  destruct (Qltb 0 _); cbn [fst];
    rewrite !list_lookup_insert_ne by congruence; exact Hp.
Qed.

Lemma match_pair_exhausts (acc : list Transaction.t * DayTradeResult.t)
    (b s : nat) :
  exhausted_pair (match_pair acc b s).1 b s.
Proof.
  destruct acc as [store result]. unfold match_pair, exhausted_pair.
  destruct (store !! b) as [buy|] eqn:Eb;
    [|cbn [fst]; intros tb ts Hb; congruence].
  destruct (store !! s) as [sell|] eqn:Es;
    [|cbn [fst]; intros tb ts _ Hs; congruence].
  destruct (Qltb 0 (Transaction.quantity buy)) eqn:Hb.
  - destruct (Qltb 0 (Transaction.quantity sell)) eqn:Hs.
    + apply Qltb_lt in Hb, Hs. cbn [andb].
      pose proof (lookup_lt_Some _ _ _ Eb) as Hlb.
      pose proof (lookup_lt_Some _ _ _ Es) as Hls.
      assert (Hmin : forall tb ts : Transaction.t,
                 (<[s:=Transaction.set_is_day_trade
                         (Transaction.set_quantity sell
                            (Transaction.quantity sell
                             - Qmin (Transaction.quantity buy)
                                 (Transaction.quantity sell))%Q) true]>
                    (<[b:=Transaction.set_is_day_trade
                            (Transaction.set_quantity buy
                               (Transaction.quantity buy
                                - Qmin (Transaction.quantity buy)
                                    (Transaction.quantity sell))%Q) true]>
                       store)) !! b = Some tb ->
                 (<[s:=Transaction.set_is_day_trade
                         (Transaction.set_quantity sell
                            (Transaction.quantity sell
                             - Qmin (Transaction.quantity buy)
                                 (Transaction.quantity sell))%Q) true]>
                    (<[b:=Transaction.set_is_day_trade
                            (Transaction.set_quantity buy
                               (Transaction.quantity buy
                                - Qmin (Transaction.quantity buy)
                                    (Transaction.quantity sell))%Q) true]>
                       store)) !! s = Some ts ->
                 ~ ((0 < Transaction.quantity tb)%Q
                    /\ (0 < Transaction.quantity ts)%Q)).
      { intros tb ts Htb Hts [H1 H2].
        rewrite list_lookup_insert_eq in Hts
          by (now rewrite length_insert).
        injection Hts as <-. cbn [Transaction.quantity
          Transaction.set_is_day_trade Transaction.set_quantity] in H2.
        destruct (decide (b = s)) as [->|Hne].
        - rewrite Eb in Es. injection Es as ->.
          destruct (Q.min_spec (Transaction.quantity sell)
                      (Transaction.quantity sell)) as [[? Hm]|[? Hm]]; lra.
        - rewrite list_lookup_insert_ne in Htb by congruence.
          rewrite list_lookup_insert_eq in Htb by exact Hlb.
          injection Htb as <-. cbn [Transaction.quantity
            Transaction.set_is_day_trade Transaction.set_quantity] in H1.
          destruct (Q.min_spec (Transaction.quantity buy)
                      (Transaction.quantity sell)) as [[? Hm]|[? Hm]]; lra. }
      destruct (Qltb 0 _); cbn [fst]; exact Hmin.
    + apply Qltb_ge in Hs. cbn [andb fst]. intros tb ts Htb Hts [H1 H2].
      rewrite Es in Hts. injection Hts as <-. lra.
  - apply Qltb_ge in Hb. cbn [andb fst]. intros tb ts Htb Hts [H1 H2].
    rewrite Eb in Htb. injection Htb as <-. lra.
Qed.

(** Once a pair is exhausted it stays so. *)
Lemma match_pair_keeps_exhausted
    (acc : list Transaction.t * DayTradeResult.t) (b s b0 s0 : nat) :
  exhausted_pair acc.1 b0 s0 ->
  exhausted_pair (match_pair acc b s).1 b0 s0.
Proof.
  intros HE tb' ts' Hb' Hs' [H1 H2].
  pose proof (match_pair_length acc b s) as Hlen.
  destruct (lookup_lt_is_Some_2 acc.1 b0) as [tb Hb].
  { rewrite <- Hlen. now apply lookup_lt_Some in Hb'. }
  destruct (lookup_lt_is_Some_2 acc.1 s0) as [ts Hs].
  { rewrite <- Hlen. now apply lookup_lt_Some in Hs'. }
  destruct (Qlt_le_dec 0 (Transaction.quantity tb)) as [Hqb|Hqb].
  - destruct (Qlt_le_dec 0 (Transaction.quantity ts)) as [Hqs|Hqs].
    + now apply (HE tb ts Hb Hs).
    + rewrite (match_pair_frozen acc b s s0 ts Hs) in Hs' by lra.
      injection Hs' as <-. lra.
  - rewrite (match_pair_frozen acc b s b0 tb Hb) in Hb' by lra.
    injection Hb' as <-. lra.
Qed.

Lemma match_sells_invariant
    (I : list Transaction.t * DayTradeResult.t -> Prop) :
  (forall acc b s, I acc -> I (match_pair acc b s)) ->
  forall (sells : list nat) (b : nat)
         (acc : list Transaction.t * DayTradeResult.t),
    I acc -> I (fold_left (fun acc sell => match_pair acc b sell) sells acc).
Proof.
  intros Hstep sells b.
  induction sells as [|s sells IH]; intros acc Hacc; simpl; [exact Hacc|].
  apply IH. now apply Hstep.
Qed.

Lemma match_buys_invariant
    (I : list Transaction.t * DayTradeResult.t -> Prop) :
  (forall acc b s, I acc -> I (match_pair acc b s)) ->
  forall (buys sells : list nat)
         (acc : list Transaction.t * DayTradeResult.t),
    I acc ->
    I (fold_left
         (fun acc buy =>
            fold_left (fun acc sell => match_pair acc buy sell) sells acc)
         buys acc).
Proof.
  intros Hstep buys sells.
  induction buys as [|b buys IH]; intros acc Hacc; simpl; [exact Hacc|].
  apply IH. now apply match_sells_invariant.
Qed.

Lemma match_sells_exhausts (sells : list nat) (b s : nat)
    (acc : list Transaction.t * DayTradeResult.t) :
  s ∈ sells ->
  exhausted_pair
    (fold_left (fun acc sell => match_pair acc b sell) sells acc).1 b s.
Proof.
  revert acc. induction sells as [|s0 sells IH]; intros acc Hin; simpl.
  - inversion Hin.
  - apply elem_of_cons in Hin as [->|Hin]; [|now apply IH].
    apply (match_sells_invariant (fun acc => exhausted_pair acc.1 b s0)).
    + intros acc' b' s'. apply match_pair_keeps_exhausted.
    + apply match_pair_exhausts.
Qed.

Lemma match_buys_exhausts (buys sells : list nat) (b s : nat)
    (acc : list Transaction.t * DayTradeResult.t) :
  b ∈ buys -> s ∈ sells ->
  exhausted_pair
    (fold_left
       (fun acc buy =>
          fold_left (fun acc sell => match_pair acc buy sell) sells acc)
       buys acc).1 b s.
Proof.
  intros Hb Hs. revert acc.
  induction buys as [|b0 buys IH]; intros acc; simpl.
  - inversion Hb.
  - apply elem_of_cons in Hb as [->|Hb]; [|now apply IH].
    apply (match_buys_invariant (fun acc => exhausted_pair acc.1 b0 s)).
    + intros acc' b' s'. apply match_pair_keeps_exhausted.
    + now apply match_sells_exhausts.
Qed.

Lemma refs_from_complete (n : nat) (k : string) (l : list Transaction.t)
    (i : nat) (t : Transaction.t) :
  l !! i = Some t -> Transaction.ticker t = k -> (n + i)%nat ∈ refs_from n k l.
Proof.
  revert n i. induction l as [|t0 l IH]; intros n i Hl Hk.
  - inversion Hl.
  - destruct i as [|i]; simpl in Hl.
    + injection Hl as ->. simpl.
      rewrite bool_decide_eq_true_2 by exact Hk.
      rewrite Nat.add_0_r. constructor.
    + simpl. replace (n + S i)%nat with (S n + i)%nat by lia.
      destruct (bool_decide _); [apply elem_of_cons; right|];
        now apply IH.
Qed.

Lemma has_type_intro (store : list Transaction.t) (type : string)
    (refs : list nat) (r : nat) (t : Transaction.t) :
  r ∈ refs -> store !! r = Some t ->
  Transaction.transaction_type t = type ->
  r ∈ List.filter (has_type store type) refs.
Proof.
  intros Hr Hl Hty. apply list_elem_of_In, filter_In.
  split; [now apply list_elem_of_In|].
  unfold has_type. rewrite Hl. now apply String.eqb_eq.
Qed.

(** X9.  After [process_day_trades] no ticker is left with both a buy and
    a sell of positive quantity: of any buy and any sell of the same ticker
    on the day, at least one has nothing left. *)
Theorem matching_is_exhaustive (day : list Transaction.t) (i j : nat)
    (b s : Transaction.t) :
  (process_day_trades day).1 !! i = Some b ->
  (process_day_trades day).1 !! j = Some s ->
  Transaction.transaction_type b = "buy" ->
  Transaction.transaction_type s = "sell" ->
  Transaction.ticker b = Transaction.ticker s ->
  ~ ((0 < Transaction.quantity b)%Q /\ (0 < Transaction.quantity s)%Q).
Proof.
  intros Hi Hj Htb Hts Hk.
  pose proof (process_day_trades_identity day) as Hid.
  destruct (Forall2_lookup_r _ _ _ _ _ Hid Hi) as (db & Hdb & Hidb).
  destruct (Forall2_lookup_r _ _ _ _ _ Hid Hj) as (ds & Hds & Hids).
  apply same_identity_fields in Hidb as (Ekb & Etb & _).
  apply same_identity_fields in Hids as (Eks & Ets & _).
  set (k := Transaction.ticker db).
  assert (Hgroup : exists refs, (k, refs) ∈ ticker_transactions day).
  { apply (group_by_key
             (fun it : nat * Transaction.t => Transaction.ticker it.2)
             (fun it : nat * Transaction.t => it.1)
             (imap pair day) (i, db)).
    apply list_elem_of_lookup. exists i.
    now rewrite list_lookup_imap, Hdb. }
  destruct Hgroup as [refs Hgroup].
  pose proof (ticker_group_refs _ _ _ Hgroup) as Hrefs.
  assert (Hir : i ∈ refs).
  { rewrite Hrefs. now apply (refs_from_complete 0 k day i db). }
  assert (Hjr : j ∈ refs).
  { rewrite Hrefs. apply (refs_from_complete 0 k day j ds); [exact Hds|].
    unfold k. congruence. }
  destruct (list_elem_of_split _ _ Hgroup) as (g1 & g2 & Hsplit).
  revert Hi Hj. unfold process_day_trades.
  rewrite Hsplit, fold_left_app. cbn [fold_left snd].
  set (acc1 := fold_left _ g1 _).
  assert (Hid1 : Forall2 same_identity day acc1.1).
  { unfold acc1. apply match_groups_identity. simpl.
    clear. induction day; constructor; auto using same_identity_refl. }
  destruct (Forall2_lookup_l _ _ _ _ _ Hid1 Hdb) as (b1 & Hb1 & Hidb1).
  destruct (Forall2_lookup_l _ _ _ _ _ Hid1 Hds) as (s1 & Hs1 & Hids1).
  apply same_identity_fields in Hidb1 as (_ & Etb1 & _).
  apply same_identity_fields in Hids1 as (_ & Ets1 & _).
  assert (HE : exhausted_pair (match_ticker acc1 refs).1 i j).
  { unfold match_ticker. apply match_buys_exhausts.
    - apply (has_type_intro _ _ _ _ b1); [exact Hir|exact Hb1|congruence].
    - apply (has_type_intro _ _ _ _ s1); [exact Hjr|exact Hs1|congruence]. }
  intros Hi Hj.
  apply (match_groups_invariant (fun acc => exhausted_pair acc.1 i j)
           (fun acc b' s' => match_pair_keeps_exhausted acc b' s' i j)
           g2 _ HE b s Hi Hj).
Qed.

Lemma matching_is_exhaustive_witness :
  ~ ((0 < 0)%Q /\ (0 < 60)%Q).
Proof.
  apply (matching_is_exhaustive partial_day_trade_day 0 1
           (Transaction.Make "VALE" "buy" 0 10 5 (jan 5) 0 true)
           (Transaction.Make "VALE" "sell" 60 11 5 (jan 5) 0 true));
    reflexivity.
Defined.

(** ** Grouping is a partition *)

Section GroupingPartition.
Context {K A : Type} `{EqDecision K}.
Variable key_of : A -> K.

Local Abbreviation keep :=
  (fun (groups : list (K * list A)) (a : A) =>
     group_append groups (key_of a) a).

Lemma group_append_count (groups : list (K * list A)) (key : K) (a : A) :
  length (concat (group_append groups key a).*2)
  = S (length (concat groups.*2)).
Proof.
  induction groups as [|[k vs] rest IH]; [reflexivity|].
  cbn [group_append]. destruct (decide (k = key)).
  - rewrite !fmap_cons. cbn [snd concat]. rewrite !length_app.
    simpl. lia.
  - rewrite !fmap_cons. cbn [snd concat]. rewrite !length_app, IH. lia.
Qed.

Lemma group_fold_count (l : list A) (groups : list (K * list A)) :
  length (concat (fold_left keep l groups).*2)
  = (length (concat groups.*2) + length l)%nat.
Proof.
  revert groups. induction l as [|a l IH]; intros groups; simpl; [lia|].
  rewrite IH, group_append_count. lia.
Qed.

Lemma group_fold_keys_inv (l : list A) (groups : list (K * list A)) (k : K) :
  k ∈ (fold_left keep l groups).*1 ->
  k ∈ groups.*1 \/ exists a, a ∈ l /\ key_of a = k.
Proof.
  revert groups. induction l as [|a l IH]; intros groups Hk; simpl in Hk.
  - now left.
  - apply IH in Hk as [Hk|(a' & Ha' & Hk)].
    + rewrite group_append_keys in Hk. case_decide; [now left|].
      apply elem_of_app in Hk as [Hk|Hk]; [now left|].
      apply list_elem_of_singleton in Hk. right. exists a.
      split; [constructor|now symmetry].
    + right. exists a'. split; [now constructor|exact Hk].
Qed.

Lemma group_by_partition (l : list A) :
  NoDup (group_by key_of (fun a => a) l).*1
  /\ (forall (k : K) (vs : list A),
         (k, vs) ∈ group_by key_of (fun a => a) l ->
         vs <> []
         /\ vs = List.filter (fun a => bool_decide (key_of a = k)) l)
  /\ (forall a : A,
         a ∈ l ->
         exists vs, (key_of a, vs) ∈ group_by key_of (fun a => a) l
                    /\ a ∈ vs)
  /\ length (concat (group_by key_of (fun a => a) l).*2) = length l.
Proof.
  split; [apply group_by_NoDup|]. split; [|split].
  - intros k vs Hin. pose proof (group_by_elem _ _ _ _ _ Hin) as Hvs.
    rewrite list_fmap_id in Hvs. split; [|exact Hvs].
    assert (Hk : k ∈ (group_by key_of (fun a => a) l).*1).
    { apply list_elem_of_fmap. now exists (k, vs). }
    apply group_fold_keys_inv in Hk as [Hk|(a & Ha & Hka)];
      [inversion Hk|].
    intros Hnil. rewrite Hnil in Hvs.
    assert (Hin' : In a (List.filter (fun a => bool_decide (key_of a = k)) l)).
    { apply filter_In. split; [now apply list_elem_of_In|].
      now apply bool_decide_eq_true. }
    rewrite <- Hvs in Hin'. exact Hin'.
  - intros a Ha. destruct (group_by_key key_of (fun a => a) l a Ha)
      as [vs Hvs].
    exists vs. split; [exact Hvs|].
    pose proof (group_by_elem _ _ _ _ _ Hvs) as E.
    rewrite list_fmap_id in E. rewrite E.
    apply list_elem_of_In, filter_In. split; [now apply list_elem_of_In|].
    now apply bool_decide_eq_true.
  - unfold group_by. rewrite (group_fold_count l []). reflexivity.
Qed.
End GroupingPartition.

(** X10.  [group_transactions_by_month] partitions the ledger: each month
    has one entry, holding exactly the transactions of that month in the
    order of the ledger and never empty; every transaction is in the entry
    of its month; and the entries together hold as many transactions as
    the ledger.  The same holds for the grouping of a month by date. *)
Theorem months_partition_the_ledger (transactions : list Transaction.t) :
  let month_of := fun t : Transaction.t =>
    (Transaction.year (Transaction.date t),
     Transaction.month (Transaction.date t)) in
  (NoDup (group_transactions_by_month transactions).*1
   /\ (forall (m : Z * Z) (txs : list Transaction.t),
          (m, txs) ∈ group_transactions_by_month transactions ->
          txs <> []
          /\ txs = List.filter (fun t => bool_decide (month_of t = m))
                     transactions)
   /\ (forall t : Transaction.t,
          t ∈ transactions ->
          exists txs, (month_of t, txs) ∈ group_transactions_by_month
                                            transactions
                      /\ t ∈ txs)
   /\ length (concat (group_transactions_by_month transactions).*2)
      = length transactions)
  /\ (NoDup (daily_transactions transactions).*1
      /\ (forall (d : Transaction.date_t) (txs : list Transaction.t),
             (d, txs) ∈ daily_transactions transactions ->
             txs <> []
             /\ txs = List.filter
                        (fun t => bool_decide (Transaction.date t = d))
                        transactions)
      /\ (forall t : Transaction.t,
             t ∈ transactions ->
             exists txs, (Transaction.date t, txs)
                           ∈ daily_transactions transactions
                         /\ t ∈ txs)
      /\ length (concat (daily_transactions transactions).*2)
         = length transactions).
Proof.
  intros month_of. split.
  - apply (group_by_partition month_of transactions).
  - apply (group_by_partition Transaction.date transactions).
Qed.

(** * Corporate actions *)

Lemma handle_corporate_action_keys
    (corporate_actions : gmap string (list CorporateAction.t))
    (action_type ticker : string) (date : Transaction.date_t)
    (ratio : option Q) (new_ticker : option string)
    (corporate_actions' : gmap string (list CorporateAction.t)) :
  recorded_by_keys corporate_actions ->
  handle_corporate_action corporate_actions action_type ticker date ratio
    new_ticker = Returns corporate_actions' ->
  recorded_by_keys corporate_actions'.
Proof.
  intros Hinv. unfold handle_corporate_action.
  destruct (existsb (String.eqb action_type) CORPORATE_ACTIONS.*1) eqn:E;
    [|discriminate].
  cbn [negb]. intros [= <-]. intros k actions Hk.
  destruct (decide (ticker = k)) as [->|Hne].
  - rewrite lookup_insert_eq in Hk. injection Hk as <-.
    apply Forall_app. split.
    + destruct (corporate_actions !! k) as [l|] eqn:El; simpl.
      * now apply (Hinv k).
      * constructor.
    + repeat constructor. exact E.
  - rewrite lookup_insert_ne in Hk by exact Hne. now apply (Hinv k).
Qed.

Lemma record_calls_keys (calls : list CorporateCall.t)
    (corporate_actions : gmap string (list CorporateAction.t)) :
  recorded_by_keys corporate_actions ->
  recorded_by_keys (record_calls calls corporate_actions).
Proof.
  unfold record_calls. revert corporate_actions.
  induction calls as [|call calls IH]; intros m Hm; simpl; [exact Hm|].
  apply IH.
  destruct (handle_corporate_action m _ _ _ _ _) as [m'|e] eqn:E;
    [|exact Hm].
  eapply handle_corporate_action_keys; [exact Hm|exact E].
Qed.

Lemma adjust_for_action_key (date : Transaction.date_t) (q : Q)
    (action : CorporateAction.t) :
  existsb (String.eqb (CorporateAction.type action)) CORPORATE_ACTIONS.*1
  = true ->
  adjust_for_action date q action = Returns q.
Proof.
  intros Hkey. unfold adjust_for_action.
  destruct (date_le _ _); [|reflexivity].
  cbn [existsb fmap list_fmap CORPORATE_ACTIONS fst] in Hkey.
  repeat (apply orb_true_iff in Hkey as [Hkey|Hkey];
          [apply String.eqb_eq in Hkey; rewrite Hkey; reflexivity|]).
  discriminate.
Qed.

(** X11.  Corporate actions never adjust a quantity.  The types that
    [handle_corporate_action] accepts are the keys of [CORPORATE_ACTIONS]
    ("split", "reverse_split", ...), and it raises [ValueError] for the
    values "stock_split" and "reverse_stock_split"; the adjustment acts on
    these two values only.  So after any sequence of calls of
    [handle_corporate_action], [adjust_quantity_for_corporate_actions]
    returns the quantity it was given, for every ticker and date, and never
    raises. *)
Theorem corporate_actions_never_adjust (calls : list CorporateCall.t)
    (corporate_actions : gmap string (list CorporateAction.t))
    (ticker : string) (quantity : Q) (date : Transaction.date_t)
    (ratio : option Q) (new_ticker : option string) :
  adjust_quantity_for_corporate_actions (record_calls calls ∅) ticker
    quantity date = Returns quantity
  /\ handle_corporate_action corporate_actions "stock_split" ticker date
       ratio new_ticker = Raises "ValueError"
  /\ handle_corporate_action corporate_actions "reverse_stock_split" ticker
       date ratio new_ticker = Raises "ValueError".
Proof.
  split; [|split; reflexivity].
  assert (Hinv : recorded_by_keys (record_calls calls ∅)).
  { apply record_calls_keys. intros k actions Hk.
    rewrite lookup_empty in Hk. discriminate. }
  unfold adjust_quantity_for_corporate_actions.
  destruct (record_calls calls ∅ !! ticker) as [actions|] eqn:E;
    [|reflexivity].
  specialize (Hinv ticker actions E). clear E.
  induction Hinv as [|action actions Ha _ IH]; [reflexivity|].
  simpl. rewrite (adjust_for_action_key date quantity action Ha). exact IH.
Qed.

(** * Portfolio positions *)

(** X12.  For a position with a positive cost basis: without a quote for
    its ticker the current value is 0, the gain/loss is minus the cost
    basis and [gain_loss_percent] is -100; with a quote,
    [gain_loss_percent] is positive exactly when the position's gain/loss is
    and negative exactly when it is. *)
Theorem position_without_quote_loses_all (self : Portfolio.t)
    (latest_quote : option ADRQuote.t) :
  (0 < Portfolio.quantity self * Portfolio.average_price_usd self)%Q ->
  (Portfolio.current_value_usd self None == 0)%Q
  /\ (Portfolio.gain_loss_usd self None
      == - (Portfolio.quantity self * Portfolio.average_price_usd self))%Q
  /\ (Portfolio.gain_loss_percent self None == - (100))%Q
  /\ ((0 < Portfolio.gain_loss_percent self latest_quote)%Q
      <-> (0 < Portfolio.gain_loss_usd self latest_quote)%Q)
  /\ ((Portfolio.gain_loss_percent self latest_quote < 0)%Q
      <-> (Portfolio.gain_loss_usd self latest_quote < 0)%Q).
Proof.
  intros Hpos. unfold Portfolio.gain_loss_percent.
  replace (Qltb 0 (Portfolio.quantity self
                   * Portfolio.average_price_usd self)) with true
    by (symmetry; now apply Qltb_lt).
  split; [reflexivity|]. split; [unfold Portfolio.gain_loss_usd; simpl; ring|].
  split.
  - unfold Portfolio.gain_loss_usd, Portfolio.current_value_usd.
    field. split; intros H0; rewrite H0 in Hpos;
      [rewrite Qmult_0_r in Hpos|rewrite Qmult_0_l in Hpos];
      now apply Qlt_irrefl in Hpos.
  - generalize (Portfolio.gain_loss_usd self latest_quote) as g.
    intros g. unfold Qdiv.
    pose proof (Qinv_lt_0_compat _ Hpos) as Hinv.
    revert Hinv.
    generalize (/ (Portfolio.quantity self
                   * Portfolio.average_price_usd self))%Q as ic.
    intros ic Hic. split; split; intros H; nra.
Qed.

Lemma position_without_quote_loses_all_witness :
  (Portfolio.gain_loss_percent (Portfolio.Make "VALE" 10 20) None
   == - (100))%Q.
Proof.
  destruct (position_without_quote_loses_all (Portfolio.Make "VALE" 10 20)
              None) as (_ & _ & H & _).
  - reflexivity.
  - exact H.
Defined.

(** * The request counter *)

Lemma rate_limited_request_spec (plan_limits : gmap string (option Z))
    (user : User.t) (now now_reset limit : Z) :
  plan_limits !! User.plan user = Some (Some limit) ->
  (0 <= limit)%Z ->
  (User.daily_requests user <= limit)%Z ->
  let r := rate_limited_request plan_limits user now now_reset in
  User.plan r.2 = User.plan user
  /\ (User.daily_requests r.2 <= limit)%Z
  /\ ((1 <=? User.days (now - User.last_request_reset user))%Z = false ->
      User.last_request_reset r.2 = User.last_request_reset user
      /\ r.1 = (User.daily_requests user <? limit)%Z
      /\ User.daily_requests r.2
         = (if r.1 then User.daily_requests user + 1
            else User.daily_requests user)%Z).
Proof.
  intros Hplan Hlimit Hle. unfold rate_limited_request, User.can_make_request.
  destruct user as [plan count last].
  cbn [User.plan User.daily_requests User.last_request_reset] in *.
  destruct (1 <=? User.days (now - last))%Z;
    cbn [User.reset_daily_requests User.plan User.daily_requests
         User.last_request_reset];
    rewrite Hplan; cbn [User.daily_requests].
  - destruct (0 <? limit)%Z eqn:E;
      [apply Z.ltb_lt in E|apply Z.ltb_ge in E];
      unfold User.increment_requests, User.reset_daily_requests;
      cbn [negb fst snd User.plan User.daily_requests
           User.last_request_reset];
      split_conj; try reflexivity; try discriminate; lia.
  - destruct (count <? limit)%Z eqn:E;
      [apply Z.ltb_lt in E|apply Z.ltb_ge in E];
      unfold User.increment_requests, User.reset_daily_requests;
      cbn [negb fst snd User.plan User.daily_requests
           User.last_request_reset];
      split_conj; try reflexivity;
      try (intros _; split_conj; reflexivity); lia.
Qed.

(** X13.  For a user whose plan has a limit that is not negative and whose
    counter does not exceed it, after any sequence of requests through the
    rate-limit middleware the counter still does not exceed the limit and
    the plan is unchanged; and when no request of the sequence comes a day
    or more after the last reset, the number of requests let through is
    min(number of requests, limit - counter at the start). *)
Theorem request_counter_never_exceeds_limit
    (plan_limits : gmap string (option Z)) (requests : list (Z * Z))
    (user : User.t) (limit : Z) :
  plan_limits !! User.plan user = Some (Some limit) ->
  (0 <= limit)%Z ->
  (User.daily_requests user <= limit)%Z ->
  let r := serve_requests plan_limits requests user in
  User.plan r.2 = User.plan user
  /\ (User.daily_requests r.2 <= limit)%Z
  /\ (Forall
        (fun request : Z * Z =>
           (1 <=? User.days (request.1 - User.last_request_reset user))%Z
           = false) requests ->
      r.1 = Z.min (Z.of_nat (length requests))
              (limit - User.daily_requests user)
      /\ User.daily_requests r.2 = (User.daily_requests user + r.1)%Z).
Proof.
  intros Hplan Hlimit Hle. unfold serve_requests.
  assert (Hgen : forall (served : Z) (u : User.t),
             User.plan u = User.plan user ->
             (User.daily_requests u <= limit)%Z ->
             let r :=
               fold_left
                 (fun (acc : Z * User.t) (request : Z * Z) =>
                    let '(served, user) := acc in
                    let '(allowed, user) :=
                      rate_limited_request plan_limits user request.1
                        request.2 in
                    ((if allowed then served + 1 else served)%Z, user))
                 requests (served, u) in
             User.plan r.2 = User.plan user
             /\ (User.daily_requests r.2 <= limit)%Z
             /\ (Forall
                   (fun request : Z * Z =>
                      (1 <=? User.days
                               (request.1 - User.last_request_reset u))%Z
                      = false) requests ->
                 r.1 = (served
                        + Z.min (Z.of_nat (length requests))
                            (limit - User.daily_requests u))%Z
                 /\ User.daily_requests r.2
                    = (User.daily_requests u + (r.1 - served))%Z)).
  { induction requests as [|[now now_reset] requests IH];
      intros served u Hp Hu.
    - cbn [fold_left fst snd length]. split_conj; try assumption.
      intros _. split; lia.
    - cbn [fold_left fst snd].
      rewrite <- Hp in Hplan.
      pose proof (rate_limited_request_spec plan_limits u now now_reset
                    limit Hplan Hlimit Hu) as Hstep.
      destruct (rate_limited_request plan_limits u now now_reset)
        as [allowed u'].
      cbn [fst snd] in Hstep. destruct Hstep as (Hp' & Hu' & Hsame).
      rewrite Hp in Hp'.
      specialize (IH (if allowed then (served + 1)%Z else served) u' Hp' Hu').
      cbn zeta in IH. destruct IH as (IH1 & IH2 & IH3).
      split; [exact IH1|]. split; [exact IH2|].
      intros Hall. inversion Hall as [|x l Hnow Hrest]; subst.
      cbn [fst] in Hnow. destruct (Hsame Hnow) as (Hlast & Hallowed & Hcount).
      rewrite Hlast in IH3. specialize (IH3 Hrest).
      destruct IH3 as [E1 E2]. rewrite E1 in *. rewrite Hcount in *.
      rewrite Hallowed in *. cbn [length].
      destruct (User.daily_requests u <? limit)%Z eqn:E;
        [apply Z.ltb_lt in E|apply Z.ltb_ge in E]; split; lia. }
  cbn zeta. specialize (Hgen 0%Z user eq_refl Hle).
  cbn zeta in Hgen. destruct Hgen as (H1 & H2 & H3).
  split; [exact H1|]. split; [exact H2|].
  intros Hall. destruct (H3 Hall) as [E1 E2]. split; lia.
Qed.

Lemma request_counter_never_exceeds_limit_witness :
  let r :=
    serve_requests free_plan_100 [(10, 11); (20, 21); (30, 31)]%Z free_user in
  User.plan r.2 = "free"
  /\ (User.daily_requests r.2 <= 100)%Z
  /\ r.1 = 2%Z.
Proof.
  destruct (request_counter_never_exceeds_limit free_plan_100
              [(10, 11); (20, 21); (30, 31)]%Z free_user 100)
    as (H1 & H2 & H3).
  - reflexivity.
  - discriminate.
  - discriminate.
  - split; [exact H1|]. split; [exact H2|].
    destruct H3 as [E _]; [repeat constructor|exact E].
Defined.

(** * Correlation strength *)

Lemma strength_of_stored (n : Z) :
  (let abs_corr := Qabs (stored_correlation n) in
   if Qle_bool MarketCorrelation.high_threshold abs_corr then "high"
   else if Qle_bool MarketCorrelation.medium_threshold abs_corr then "medium"
   else "low")
  = strength_of_ten_thousandths n.
Proof.
  unfold strength_of_ten_thousandths, stored_correlation, Qle_bool,
    MarketCorrelation.high_threshold, MarketCorrelation.medium_threshold.
  cbn [Qabs Qnum Qden].
  destruct (7000 <=? Z.abs n)%Z eqn:E1;
    [apply Z.leb_le in E1|apply Z.leb_gt in E1].
  - replace (_ <=? _)%Z with true; [reflexivity|].
    symmetry. apply Z.leb_le. lia.
  - replace (_ <=? _)%Z with false by (symmetry; apply Z.leb_gt; lia).
    destruct (3000 <=? Z.abs n)%Z eqn:E2;
      [apply Z.leb_le in E2|apply Z.leb_gt in E2].
    + replace (_ <=? _)%Z with true; [reflexivity|].
      symmetry. apply Z.leb_le. lia.
    + replace (_ <=? _)%Z with false; [reflexivity|].
      symmetry. apply Z.leb_gt. lia.
Qed.

(** X14.  The float thresholds of [correlation_strength_30d] and
    [correlation_strength_7d] act on stored correlations (four decimal
    places) as the decimal thresholds 0.7000 and 0.3000: a correlation of
    [n / 10000] is "high" exactly when |n| >= 7000, "medium" exactly when
    3000 <= |n| < 7000 and "low" otherwise; so 0.7000 is "high", 0.3000 is
    "medium", and a correlation and its opposite get the same class. *)
Theorem correlation_strength_of_stored_value (n m : Z) :
  let self :=
    MarketCorrelation.Make (stored_correlation n) (stored_correlation m) in
  let opposite :=
    MarketCorrelation.Make (stored_correlation (- n))
      (stored_correlation (- m)) in
  MarketCorrelation.correlation_strength_30d self
  = strength_of_ten_thousandths n
  /\ MarketCorrelation.correlation_strength_7d self
     = strength_of_ten_thousandths m
  /\ MarketCorrelation.correlation_strength_30d opposite
     = MarketCorrelation.correlation_strength_30d self
  /\ MarketCorrelation.correlation_strength_7d opposite
     = MarketCorrelation.correlation_strength_7d self.
Proof.
  cbn zeta.
  unfold MarketCorrelation.correlation_strength_30d,
    MarketCorrelation.correlation_strength_7d.
  cbn [MarketCorrelation.correlation_30d MarketCorrelation.correlation_7d].
  rewrite !strength_of_stored.
  unfold strength_of_ten_thousandths. rewrite !Z.abs_opp.
  split_conj; reflexivity.
Qed.
